(** * DebatedAI-Master: the debate session, its turn segmenter and the
      speaker resolution of the turn player

    Shallow embedding of [services/gemini.ts] (class [DebateSession]:
    [initializeTeams], [nextTurn]) and of the turn player [triggerNextTurn]
    of [App.tsx].

    - JavaScript strings are sequences of UTF-16 code units; they are
      modelled as lists of [N].  The string literals of the source are
      written as Rocq strings (UTF-8 bytes) and decoded by [utf16].
    - An [async] function is split where it awaits the backend: the part
      up to the [await] ([_enter]) and the part that runs when the request
      has ended ([_resume]), the way it ended being an argument.
    - The built-in functions whose meaning is not a few lines
      ([JSON.parse], [encodeURIComponent], [String.prototype.toLowerCase])
      are variables of the sections that use them; [Builtins] has stand-ins
      for the closed examples.
    - Not modelled: the text of the system instruction and of the team
      prompt, the response schema, the two seconds the player waits after
      each message, and the rendering. *)

From Stdlib Require Import List NArith Bool String Ascii Lia QArith.
Import ListNotations.
Close Scope Q_scope.

Set Implicit Arguments.

(* ================================================================== *)
(** ** JavaScript strings *)
(* ================================================================== *)

Module JS.

Definition char16 := N.
Definition jsstring := list char16.

(** *** Literals: UTF-8 bytes of a Rocq string to UTF-16 code units *)

Fixpoint bytes_of (s : string) : list N :=
  match s with
  | EmptyString => []
  | String a s' => N_of_ascii a :: bytes_of s'
  end.

(** Code units of one code point. *)
Definition units_of_code_point (cp : N) : list char16 :=
  if (cp <? 65536)%N then [cp]
  else [(55296 + (cp - 65536) / 1024)%N; (56320 + (cp - 65536) mod 1024)%N].

(** Decoder state: number of continuation bytes still expected and the
    code point accumulated so far. *)
Fixpoint utf8_decode (need : nat) (cp : N) (bs : list N) : list char16 :=
  match bs with
  | [] => []
  | b :: bs' =>
      match need with
      | O =>
          if (b <? 128)%N then b :: utf8_decode 0 0%N bs'
          else if (b <? 224)%N then utf8_decode 1 (N.land b 31) bs'
          else if (b <? 240)%N then utf8_decode 2 (N.land b 15) bs'
          else utf8_decode 3 (N.land b 7) bs'
      | S O =>
          units_of_code_point (cp * 64 + N.land b 63) ++ utf8_decode 0 0%N bs'
      | S n =>
          utf8_decode n (cp * 64 + N.land b 63)%N bs'
      end
  end.

Definition utf16 (s : string) : jsstring := utf8_decode 0 0%N (bytes_of s).

(** *** Character classes of ECMAScript *)

(** [\s] of a regular expression, which is also the set removed by
    [String.prototype.trim]: WhiteSpace and LineTerminator. *)
Definition is_space (c : char16) : bool :=
  ((9 <=? c) && (c <=? 13) || (c =? 32) || (c =? 160) || (c =? 5760)
   || (8192 <=? c) && (c <=? 8202)
   || (c =? 8232) || (c =? 8233) || (c =? 8239) || (c =? 8287)
   || (c =? 12288) || (c =? 65279))%N.

(** LineTerminator: the code units that [.] does not match. *)
Definition is_line_terminator (c : char16) : bool :=
  ((c =? 10) || (c =? 13) || (c =? 8232) || (c =? 8233))%N.

(** Canonicalize of a regular expression with the [i] flag and without the
    [u] flag, on the code units that can be equal to an ASCII pattern
    character: a code unit above 127 is never canonicalized to an ASCII
    one, so only the ASCII lower-case letters are folded. *)
Definition canonicalize (c : char16) : char16 :=
  if ((97 <=? c) && (c <=? 122))%N then (c - 32)%N else c.

(** *** List-level string operations *)

Fixpoint drop_while (p : char16 -> bool) (s : jsstring) : jsstring :=
  match s with
  | [] => []
  | c :: s' => if p c then drop_while p s' else s
  end.

Fixpoint take_while (p : char16 -> bool) (s : jsstring) : jsstring :=
  match s with
  | [] => []
  | c :: s' => if p c then c :: take_while p s' else []
  end.

(** [s.trim()] *)
Definition trim (s : jsstring) : jsstring :=
  rev (drop_while is_space (rev (drop_while is_space s))).

(** [s.replace(/\s/g, '')] *)
Definition remove_spaces (s : jsstring) : jsstring :=
  filter (fun c => negb (is_space c)) s.

Definition LF : char16 := 10%N.

(** [s.split('\n')]: never empty, [''.split('\n')] is [['']]. *)
Fixpoint split_lines (s : jsstring) : list jsstring :=
  match s with
  | [] => [[]]
  | c :: s' =>
      if (c =? LF)%N then [] :: split_lines s'
      else match split_lines s' with
           | l :: ls => (c :: l) :: ls
           | [] => [[c]]
           end
  end.

(** [ls.join('\n')] *)
Fixpoint join_lines (ls : list jsstring) : jsstring :=
  match ls with
  | [] => []
  | l :: ls' =>
      match ls' with
      | [] => l
      | _ :: _ => l ++ LF :: join_lines ls'
      end
  end.

Fixpoint starts_with (p s : jsstring) : bool :=
  match p, s with
  | [], _ => true
  | _ :: _, [] => false
  | a :: p', b :: s' => (a =? b)%N && starts_with p' s'
  end.

(** [hay.includes(needle)] *)
Fixpoint includes (hay needle : jsstring) : bool :=
  starts_with needle hay ||
  match hay with
  | [] => false
  | _ :: hay' => includes hay' needle
  end.

Definition eqb (a b : jsstring) : bool :=
  if list_eq_dec N.eq_dec a b then true else false.

(** A string is truthy iff it is not empty. *)
Definition truthy (s : jsstring) : bool :=
  match s with [] => false | _ :: _ => true end.

(** Decimal digits of a number, as in a template literal [`${i}`]. *)
Fixpoint digits_of_uint (d : Decimal.uint) : jsstring :=
  match d with
  | Decimal.Nil => []
  | Decimal.D0 d' => 48%N :: digits_of_uint d'
  | Decimal.D1 d' => 49%N :: digits_of_uint d'
  | Decimal.D2 d' => 50%N :: digits_of_uint d'
  | Decimal.D3 d' => 51%N :: digits_of_uint d'
  | Decimal.D4 d' => 52%N :: digits_of_uint d'
  | Decimal.D5 d' => 53%N :: digits_of_uint d'
  | Decimal.D6 d' => 54%N :: digits_of_uint d'
  | Decimal.D7 d' => 55%N :: digits_of_uint d'
  | Decimal.D8 d' => 56%N :: digits_of_uint d'
  | Decimal.D9 d' => 57%N :: digits_of_uint d'
  end.

Definition of_nat (i : nat) : jsstring := digits_of_uint (Nat.to_uint i).

End JS.

Import JS.

(* ================================================================== *)
(** ** services/gemini.ts: turn segments and the line grammar *)
(* ================================================================== *)

Inductive SegType : Type := moderator | debater.

Record TurnSegment : Type := mkTurnSegment {
  speaker : jsstring;
  content : jsstring;
  type : SegType
}.

Definition MODERATOR_NAME : jsstring := utf16 "主持人".
Definition SYSTEM_NAME : jsstring := utf16 "系统".
Definition MODERATOR_TAG : jsstring := utf16 "MODERATOR:".
Definition SPEAKER_TAG : jsstring := utf16 "SPEAKER:".

(** The pattern characters of [tag] matched one by one at the start of
    [line] under the [i] flag; the rest of the line on success. *)
Fixpoint match_prefix_ci (tag line : jsstring) : option jsstring :=
  match tag, line with
  | [], _ => Some line
  | _ :: _, [] => None
  | a :: tag', b :: line' =>
      if (canonicalize a =? canonicalize b)%N then match_prefix_ci tag' line'
      else None
  end.

(** [line.match(re)] for the two expressions of [nextTurn], which are the
    tag anchored at the start, [\s] repeated, and one group of any code
    units but line terminators, under the [i] flag: [None] for [null],
    otherwise capture group 1.  The white space is matched greedily and
    what follows it always matches, so the group is the longest run without
    line terminator after the white space that follows the tag. *)
Definition match_tag (tag line : jsstring) : option jsstring :=
  match match_prefix_ci tag line with
  | None => None
  | Some rest => Some (take_while (fun c => negb (is_line_terminator c))
                                  (drop_while is_space rest))
  end.

Definition modMatch (line : jsstring) : option jsstring := match_tag MODERATOR_TAG line.
Definition spkMatch (line : jsstring) : option jsstring := match_tag SPEAKER_TAG line.

(** The variables the closure [flush] and the loop of [nextTurn] share. *)
Record SegState : Type := mkSegState {
  segments : list TurnSegment;
  currentSpeaker : jsstring;
  currentType : SegType;
  currentContent : list jsstring
}.

Definition seg_init : SegState :=
  mkSegState [] MODERATOR_NAME moderator [].

Definition flush (st : SegState) : SegState :=
  match currentContent st with
  | [] => st
  | _ :: _ =>
      mkSegState
        (segments st ++
           [mkTurnSegment (currentSpeaker st)
                          (trim (join_lines (currentContent st)))
                          (currentType st)])
        (currentSpeaker st) (currentType st) []
  end.

(** One iteration of [for (const line of lines)]. *)
Definition seg_step (st : SegState) (line : jsstring) : SegState :=
  match modMatch line with
  | Some g =>
      let st' := flush st in
      mkSegState (segments st') MODERATOR_NAME moderator
                 (if truthy (trim g) then currentContent st' ++ [trim g]
                  else currentContent st')
  | None =>
      match spkMatch line with
      | Some g =>
          let st' := flush st in
          mkSegState (segments st') (trim g) debater (currentContent st')
      | None =>
          mkSegState (segments st) (currentSpeaker st) (currentType st)
                     (currentContent st ++ [line])
      end
  end.

(** The loop followed by the last [flush]. *)
Definition seg_run (text : jsstring) : SegState :=
  flush (fold_left seg_step (split_lines text) seg_init).

(** The segments [nextTurn] returns for the response text [text]. *)
Definition segment_text (text : jsstring) : list TurnSegment :=
  let segs := segments (seg_run text) in
  match segs with
  | [] => [mkTurnSegment MODERATOR_NAME text moderator]
  | _ :: _ => segs
  end.


(* ================================================================== *)
(** ** services/gemini.ts: teams, the chat handle and the session *)
(* ================================================================== *)

Inductive Side : Type := proposition | opposition.

Record Debater : Type := mkDebater {
  id : jsstring;
  name : jsstring;
  role : jsstring;
  side : Side;
  style : jsstring;
  avatarUrl : jsstring
}.

Record Team : Type := mkTeam {
  team_side : Side;
  team_name : jsstring;
  members : list Debater
}.

(** What is sent with [chat.sendMessage]: the team request of
    [initializeTeams] (a fixed prompt around the topic, with the response
    schema) or the plain-text message of [nextTurn]. *)
Inductive Request : Type :=
| TeamRequest (topic : jsstring)
| TurnRequest (message : jsstring).

(** The chat handle of the backend, as far as the session can tell: the
    requests sent on it, in order, and how many of them have not been
    answered yet. *)
Record Chat : Type := mkChat {
  sent : list Request;
  awaiting : nat
}.

Definition chat_create : Chat := mkChat [] 0.

Definition chat_send (c : Chat) (r : Request) : Chat :=
  mkChat (sent c ++ [r]) (S (awaiting c)).

Definition chat_settle (c : Chat) : Chat :=
  mkChat (sent c) (pred (awaiting c)).

(** How an awaited [sendMessage] ends: with a response, whose [text] may be
    [undefined], or with a thrown error, of which [message] is what
    [e.message] appends to a string. *)
Inductive SendOutcome : Type :=
| Responded (text : option jsstring)
| Failed (message : jsstring).

(** Exceptions of the session's own code. *)
Inductive exn : Type :=
| Error (message : jsstring)
| TypeError
| URIError.

(** How a piece of code ends.  [Untyped] stands for a run in which a value
    leaves its declared TypeScript type (a member whose [name] is not a
    string stored in a [Debater], say); the model does not follow such a
    run further. *)
Inductive result (A : Type) : Type :=
| Ok (a : A)
| Throw (e : exn)
| Untyped.
Arguments Ok {A} a.
Arguments Throw {A} e.
Arguments Untyped {A}.

Definition bind {A B : Type} (r : result A) (k : A -> result B) : result B :=
  match r with
  | Ok a => k a
  | Throw e => Throw e
  | Untyped => Untyped
  end.

Notation "x <- r ;; k" := (bind r (fun x => k))
  (at level 61, r at next level, right associativity).

(** The fields of [DebateSession]. *)
Record DebateSession : Type := mkDebateSession {
  topic : jsstring;
  chat : option Chat;
  propTeam : option Team;
  oppTeam : option Team
}.

Definition new_DebateSession (topic : jsstring) : DebateSession :=
  mkDebateSession topic None None None.

Definition with_chat (s : DebateSession) (c : Chat) : DebateSession :=
  mkDebateSession (topic s) (Some c) (propTeam s) (oppTeam s).

(** *** nextTurn *)

Definition CONTINUE_PROMPT : jsstring :=
  utf16 "请继续下一轮辩论发言。严格遵守 'MODERATOR:' 和 'SPEAKER:' 格式。".

Definition ERROR_PREFIX : jsstring := utf16 "生成错误: ".

(** [userInput || "..."] *)
Definition turn_message (userInput : option jsstring) : jsstring :=
  match userInput with
  | Some u => if truthy u then u else CONTINUE_PROMPT
  | None => CONTINUE_PROMPT
  end.

(** [nextTurn] up to its [await]: the check of [this.chat] and the call of
    [sendMessage]. *)
Definition nextTurn_enter (s : DebateSession) (userInput : option jsstring)
  : result DebateSession :=
  match chat s with
  | None => Throw (Error (utf16 "Chat not initialized"))
  | Some c => Ok (with_chat s (chat_send c (TurnRequest (turn_message userInput))))
  end.

(** The body of the [try] after the [await], and the [catch]. *)
Definition turn_segments (o : SendOutcome) : list TurnSegment :=
  match o with
  | Responded t =>
      segment_text (match t with Some x => x | None => [] end)
  | Failed m =>
      [mkTurnSegment SYSTEM_NAME (ERROR_PREFIX ++ m) moderator]
  end.

(** [nextTurn] from its [await] on, when the request ends with [o]. *)
Definition nextTurn_resume (s : DebateSession) (o : SendOutcome)
  : DebateSession * list TurnSegment :=
  (match chat s with
   | Some c => with_chat s (chat_settle c)
   | None => s
   end,
   turn_segments o).


(* ================================================================== *)
(** ** services/gemini.ts: initializeTeams *)
(* ================================================================== *)

(** Values of [JSON.parse]; an object has one entry per key. *)
#[warnings="-register-all"] Inductive json : Type :=
| JNull
| JBool (b : bool)
| JNumber (q : Q)
| JString (s : jsstring)
| JArray (items : list json)
| JObject (fields : list (jsstring * json)).

Fixpoint assoc (k : jsstring) (fs : list (jsstring * json)) : option json :=
  match fs with
  | [] => None
  | (k', v) :: fs' => if JS.eqb k k' then Some v else assoc k fs'
  end.

(** [v.k] for one of the keys [initializeTeams] reads ([proposition],
    [opposition], [members], [name], [role], [style]): [None] for
    [undefined].  Reading a property of [null] throws; primitives and arrays
    have none of these properties. *)
Definition get (v : json) (k : jsstring) : result (option json) :=
  match v with
  | JNull => Throw TypeError
  | JObject fs => Ok (assoc k fs)
  | _ => Ok None
  end.

Definition json_truthy (v : option json) : bool :=
  match v with
  | None => false
  | Some JNull => false
  | Some (JBool b) => b
  | Some (JNumber q) => negb (Qeq_bool q 0%Q)
  | Some (JString s) => truthy s
  | Some (JArray _) => true
  | Some (JObject _) => true
  end.

(** [v || {}] *)
Definition or_empty_object (v : option json) : json :=
  match v with
  | Some x => if json_truthy v then x else JObject []
  | None => JObject []
  end.

(** [Array.isArray(v) ? v : []] *)
Definition array_or_empty (v : option json) : list json :=
  match v with
  | Some (JArray items) => items
  | _ => []
  end.

(** [v || dflt] stored in a field of type [string]. *)
Definition string_or (v : option json) (dflt : jsstring) : result jsstring :=
  if json_truthy v then
    match v with
    | Some (JString s) => Ok s
    | _ => Untyped
    end
  else Ok dflt.

Definition string_field (m : json) (k : jsstring) : result jsstring :=
  v <- get m k ;;
  match v with
  | Some (JString s) => Ok s
  | _ => Untyped
  end.

Definition side_string (sd : Side) : jsstring :=
  match sd with
  | proposition => utf16 "proposition"
  | opposition => utf16 "opposition"
  end.

Definition id_prefix (sd : Side) : jsstring :=
  match sd with
  | proposition => utf16 "prop-"
  | opposition => utf16 "opp-"
  end.

Definition default_member_name (sd : Side) : jsstring :=
  match sd with
  | proposition => utf16 "正方辩手 1"
  | opposition => utf16 "反方辩手 1"
  end.

Definition default_member (sd : Side) : json :=
  JObject [(utf16 "name", JString (default_member_name sd));
           (utf16 "role", JString (utf16 "辩手"));
           (utf16 "style", JString (utf16 "标准"))].

Definition default_team_name (sd : Side) : jsstring :=
  match sd with
  | proposition => utf16 "正方"
  | opposition => utf16 "反方"
  end.

(** [if (ms.length === 0) ms.push({...})] *)
Definition push_default (sd : Side) (ms : list json) : list json :=
  match ms with
  | [] => [default_member sd]
  | _ :: _ => ms
  end.

(** The template literals of [getAvatar]: the seed before it is encoded,
    and the address around the encoded seed. *)
Definition avatar_seed (name : jsstring) (sd : Side) : jsstring :=
  name ++ utf16 "-" ++ side_string sd.

Definition avatar_url (seed : jsstring) (sd : Side) : jsstring :=
  utf16 "https://api.dicebear.com/9.x/micah/png?seed=" ++ seed
  ++ utf16 "&backgroundColor="
  ++ match sd with
     | proposition => utf16 "ecfccb"
     | opposition => utf16 "ffe4e6"
     end
  ++ utf16 "&backgroundType=gradientLinear&radius=50".

Section InitializeTeams.

(** The two built-in functions [initializeTeams] calls: [JSON.parse], with
    [None] for a thrown [SyntaxError], and [encodeURIComponent], with
    [None] for a thrown [URIError]. *)
Variable JSON_parse : jsstring -> option json.
Variable encodeURIComponent : jsstring -> option jsstring.

Definition getAvatar (name : jsstring) (sd : Side) : result jsstring :=
  match encodeURIComponent (avatar_seed name sd) with
  | None => Throw URIError
  | Some seed => Ok (avatar_url seed sd)
  end.

(** The callback of [members.map]: [{...m, id, side, avatarUrl}]. *)
Definition make_debater (sd : Side) (i : nat) (m : json) : result Debater :=
  nm <- string_field m (utf16 "name") ;;
  rl <- string_field m (utf16 "role") ;;
  st <- string_field m (utf16 "style") ;;
  av <- getAvatar nm sd ;;
  Ok (mkDebater (id_prefix sd ++ of_nat i) nm rl sd st av).

(** [ms.map((m, i) => ...)], from index [i] on. *)
Fixpoint map_members (sd : Side) (i : nat) (ms : list json) : result (list Debater) :=
  match ms with
  | [] => Ok []
  | m :: ms' =>
      d <- make_debater sd i m ;;
      ds <- map_members sd (S i) ms' ;;
      Ok (d :: ds)
  end.

(** The team object of one side: [{side, name: d.name || dflt, members:
    ms.map(...)}]. *)
Definition build_team (sd : Side) (d : json) (ms : list json) : result Team :=
  n <- get d (utf16 "name") ;;
  nm <- string_or n (default_team_name sd) ;;
  ds <- map_members sd 0 ms ;;
  Ok (mkTeam sd nm ds).

(** From the parsed [data] to [propData], [oppData] and the two member
    arrays, defaults pushed. *)
Definition team_data (data : json)
  : result ((json * list json) * (json * list json)) :=
  p <- get data (utf16 "proposition") ;;
  let propData := or_empty_object p in
  o <- get data (utf16 "opposition") ;;
  let oppData := or_empty_object o in
  pm <- get propData (utf16 "members") ;;
  om <- get oppData (utf16 "members") ;;
  Ok ((propData, push_default proposition (array_or_empty pm)),
      (oppData, push_default opposition (array_or_empty om))).

Definition with_propTeam (s : DebateSession) (t : Team) : DebateSession :=
  mkDebateSession (topic s) (chat s) (Some t) (oppTeam s).

Definition with_oppTeam (s : DebateSession) (t : Team) : DebateSession :=
  mkDebateSession (topic s) (chat s) (propTeam s) (Some t).

(** The part of [initializeTeams] after [JSON.parse]: [this.propTeam] is
    assigned before the opposition team is built. *)
Definition set_teams (s : DebateSession) (data : json) : DebateSession * result (Team * Team) :=
  match team_data data with
  | Throw e => (s, Throw e)
  | Untyped => (s, Untyped)
  | Ok ((propData, propMembers), (oppData, oppMembers)) =>
      match build_team proposition propData propMembers with
      | Throw e => (s, Throw e)
      | Untyped => (s, Untyped)
      | Ok p =>
          let s' := with_propTeam s p in
          match build_team opposition oppData oppMembers with
          | Throw e => (s', Throw e)
          | Untyped => (s', Untyped)
          | Ok q => (with_oppTeam s' q, Ok (p, q))
          end
      end
  end.

(** [initializeTeams] up to its [await]: the chat is created and the team
    request sent on it. *)
Definition initializeTeams_enter (s : DebateSession) : DebateSession :=
  with_chat s (chat_send chat_create (TeamRequest (topic s))).

(** What follows the [await], with the session as it is left. *)
Definition initializeTeams_resume (s : DebateSession) (o : SendOutcome)
  : DebateSession * result (Team * Team) :=
  let s1 := match chat s with
            | Some c => with_chat s (chat_settle c)
            | None => s
            end in
  match o with
  | Failed m => (s1, Throw (Error m))
  | Responded t =>
      let text := match t with Some x => x | None => [] end in
      if truthy text then
        match JSON_parse text with
        | None => (s1, Throw (Error (utf16 "Failed to parse debate teams configuration.")))
        | Some data => set_teams s1 data
        end
      else (s1, Throw (Error (utf16 "No response from AI")))
  end.

Definition initializeTeams (s : DebateSession) (o : SendOutcome)
  : DebateSession * result (Team * Team) :=
  initializeTeams_resume (initializeTeams_enter s) o.

End InitializeTeams.

(* ================================================================== *)
(** ** App.tsx: the turn player *)
(* ================================================================== *)

Module App.

Inductive Role : Type := user | model | system.

(** [speakerSide] of a message. *)
Inductive SpeakerSide : Type :=
| of_team (sd : Side)
| moderator_side.

Record Message : Type := mkMessage {
  msg_id : jsstring;
  msg_role : Role;
  speakerName : option jsstring;
  speakerSide : option SpeakerSide;
  msg_avatarUrl : option jsstring;
  msg_content : jsstring;
  timestamp : N
}.

(** The state variables of the component that [triggerNextTurn] reads or
    sets. *)
Record State : Type := mkState {
  messages : list Message;
  currentSpeaker : option jsstring;
  error : option jsstring;
  isLoadingTurn : bool
}.

(** What [uid()] and [Date.now()] give for one message. *)
Record Stamp : Type := mkStamp {
  stamp_uid : jsstring;
  stamp_now : N
}.

Definition addMessage (st : State) (m : Message) : State :=
  mkState (messages st ++ [m]) (currentSpeaker st) (error st) (isLoadingTurn st).

Definition setCurrentSpeaker (st : State) (v : option jsstring) : State :=
  mkState (messages st) v (error st) (isLoadingTurn st).

Definition setError (st : State) (v : option jsstring) : State :=
  mkState (messages st) (currentSpeaker st) v (isLoadingTurn st).

Definition setIsLoadingTurn (st : State) (b : bool) : State :=
  mkState (messages st) (currentSpeaker st) (error st) b.

Section Player.

(** [String.prototype.toLowerCase], a built-in function. *)
Variable toLowerCase : jsstring -> jsstring.

(** The stamps of the messages, by their position in [messages]. *)
Variable stamp : nat -> Stamp.

(** [x.toLowerCase().replace(/\s/g, '')] *)
Definition normalize (x : jsstring) : jsstring := remove_spaces (toLowerCase x).

(** The callback of the two [find]s, [n] being the normalized speaker. *)
Definition qualifies (n : jsstring) (m : Debater) : bool :=
  let mn := normalize (name m) in
  includes mn n || includes n mn.

(** [team?.members.find(...)] *)
Definition find_member (t : option Team) (n : jsstring) : option Debater :=
  match t with
  | None => None
  | Some t' => find (qualifies n) (members t')
  end.

(** What the loop body decides for a segment: side, avatar and speaker name
    of the message, and the value given to [setCurrentSpeaker]. *)
Record Attribution : Type := mkAttribution {
  attr_side : SpeakerSide;
  attr_avatarUrl : option jsstring;
  attr_speakerName : jsstring;
  attr_current : option jsstring
}.

Definition attribute (s : DebateSession) (segment : TurnSegment) : Attribution :=
  let n := normalize (speaker segment) in
  let propMember := find_member (propTeam s) n in
  let oppMember := find_member (oppTeam s) n in
  match propMember with
  | Some m => mkAttribution (of_team proposition) (Some (avatarUrl m)) (name m) (Some (name m))
  | None =>
      match oppMember with
      | Some m => mkAttribution (of_team opposition) (Some (avatarUrl m)) (name m) (Some (name m))
      | None => mkAttribution moderator_side None (speaker segment) None
      end
  end.

(** The body of [for (const segment of segments)]. *)
Definition play_segment (s : DebateSession) (st : State) (segment : TurnSegment) : State :=
  let a := attribute s segment in
  let st1 := setCurrentSpeaker st (attr_current a) in
  let k := stamp (List.length (messages st1)) in
  addMessage st1
    (mkMessage (stamp_uid k) model (Some (attr_speakerName a)) (Some (attr_side a))
               (attr_avatarUrl a) (content segment) (stamp_now k)).

Definition play_segments (s : DebateSession) (st : State) (segs : list TurnSegment) : State :=
  fold_left (play_segment s) segs st.

Definition TURN_FAILED : jsstring := utf16 "生成回合失败。".
Definition YOU : jsstring := utf16 "你".

(** The optimistic message of an interjection. *)
Definition add_interjection (st : State) (userInterjection : option jsstring) : State :=
  match userInterjection with
  | Some u =>
      if truthy u then
        let k := stamp (List.length (messages st)) in
        addMessage st (mkMessage (stamp_uid k) user (Some YOU) None None u (stamp_now k))
      else st
  | None => st
  end.

(** [triggerNextTurn] up to the [await] of [session.nextTurn], the state
    [st] being the one of the render the closure belongs to.  When
    [nextTurn] throws, the [catch] and the [finally] run at once. *)
Definition triggerNextTurn_enter (st : State) (s : DebateSession)
    (userInterjection : option jsstring) : State * DebateSession :=
  if isLoadingTurn st then (st, s)
  else
    let st1 := add_interjection (setIsLoadingTurn st true) userInterjection in
    match nextTurn_enter s userInterjection with
    | Ok s' => (st1, s')
    | _ => (setIsLoadingTurn (setError st1 (Some TURN_FAILED)) false, s)
    end.

(** [triggerNextTurn] from the [await] on, the request ending with [o]:
    the segments are played in order, then the [finally]. *)
Definition triggerNextTurn_resume (st : State) (s : DebateSession) (o : SendOutcome)
  : State * DebateSession :=
  let '(s', segs) := nextTurn_resume s o in
  let st1 := play_segments s' st segs in
  (setIsLoadingTurn (setCurrentSpeaker st1 None) false, s').

End Player.

End App.

(* ================================================================== *)
(** ** The player and the session run together *)
(* ================================================================== *)




Section Run.

Variable toLowerCase : jsstring -> jsstring.
Variable stamp : nat -> App.Stamp.




End Run.

(* ================================================================== *)
(** ** Specification-side notions *)
(* ================================================================== *)

(** [a] occurs in [b] as a contiguous run of code units. *)
Definition Substring (a b : jsstring) : Prop :=
  exists pre post, b = pre ++ a ++ post.

(** [a] is [b] up to the case of ASCII letters. *)
Definition same_ignoring_case (a b : jsstring) : Prop :=
  map canonicalize a = map canonicalize b.

(** The line begins with [tag], whatever the case of its letters. *)
Definition begins_with_tag (tag line : jsstring) : Prop :=
  exists pre rest, line = pre ++ rest /\ same_ignoring_case pre tag.

(** What follows a tag on its line, as the segmenter reads it: the text
    after the tag and its white space, up to the first line terminator (a
    carriage return, say), trimmed. *)
Definition inline_text (rest : jsstring) : jsstring :=
  trim (take_while (fun c => negb (is_line_terminator c)) (drop_while is_space rest)).

Definition all_space (x : jsstring) : bool := forallb is_space x.

Definition roster (t : option Team) : list Debater :=
  match t with
  | Some t' => members t'
  | None => []
  end.

(** The rule of the resolver in the words of the specification: after
    normalization, the label contains the name of the member or the name
    contains the label. *)
Definition Qualifies (toLowerCase : jsstring -> jsstring) (label : jsstring)
    (m : Debater) : Prop :=
  Substring (App.normalize toLowerCase (name m)) (App.normalize toLowerCase label)
  \/ Substring (App.normalize toLowerCase label) (App.normalize toLowerCase (name m)).

(** The attribution of a segment to the member [m] of the team of [sd]. *)
Definition attributed_to (sd : Side) (m : Debater) : App.Attribution :=
  App.mkAttribution (App.of_team sd) (Some (avatarUrl m)) (name m) (Some (name m)).

(** The attribution of a segment labelled [label] to nobody. *)
Definition unattributed (label : jsstring) : App.Attribution :=
  App.mkAttribution App.moderator_side None label None.

(** [m] is the first member of [l] with property [P]. *)
Inductive first_such (P : Debater -> Prop) : list Debater -> Debater -> Prop :=
| first_here m l : P m -> first_such P (m :: l) m
| first_later x m l : ~ P x -> first_such P l m -> first_such P (x :: l) m.

(** The ids of a team of [n] members: the prefix of the side and the
    position. *)
Definition sequential_ids (sd : Side) (n : nat) : list jsstring :=
  map (fun i => id_prefix sd ++ of_nat i) (seq 0 n).

Definition other (sd : Side) : Side :=
  match sd with
  | proposition => opposition
  | opposition => proposition
  end.

Definition side_key (sd : Side) : jsstring := side_string sd.

(** [data.proposition || {}] or [data.opposition || {}], for [data] other
    than [null]. *)
Definition side_object (data : json) (sd : Side) : json :=
  match get data (side_key sd) with
  | Ok v => or_empty_object v
  | _ => JObject []
  end.

(** The member array of a side as parsed, before the default is pushed. *)
Definition raw_members (data : json) (sd : Side) : list json :=
  match get (side_object data sd) (utf16 "members") with
  | Ok v => array_or_empty v
  | _ => []
  end.

(** The member [initializeTeams] makes up for a side without members. *)
Definition default_debater (sd : Side) (seed : jsstring) : Debater :=
  mkDebater (id_prefix sd ++ utf16 "0") (default_member_name sd) (utf16 "辩手") sd
            (utf16 "标准") (avatar_url seed sd).

(** The response [initializeTeams] cannot use: no text, the empty text, or
    a text [JSON.parse] rejects. *)
Definition unusable (parse : jsstring -> option json) (o : SendOutcome) : Prop :=
  match o with
  | Responded None => True
  | Responded (Some text) => text = [] \/ parse text = None
  | Failed _ => False
  end.

(** The session once [initializeTeams] has sent its request on a new chat
    and the request has ended, the teams being as they were. *)
Definition answered (s : DebateSession) : DebateSession :=
  mkDebateSession (topic s) (Some (mkChat [TeamRequest (topic s)] 0)) (propTeam s) (oppTeam s).

(** [d.name || dflt] for the team object of a side. *)
Definition declared_team_name (data : json) (sd : Side) : result jsstring :=
  n <- get (side_object data sd) (utf16 "name") ;;
  string_or n (default_team_name sd).

Definition team_of (sd : Side) (pq : Team * Team) : Team :=
  match sd with
  | proposition => fst pq
  | opposition => snd pq
  end.

(* ================================================================== *)
(** ** Stand-ins for the built-in functions, for closed examples *)
(* ================================================================== *)

Module Builtins.

(** [toLowerCase] on strings whose cased letters are all ASCII (Chinese
    names have no case). *)
Definition toLowerCase (x : jsstring) : jsstring :=
  map (fun c => if ((65 <=? c) && (c <=? 90))%N then (c + 32)%N else c) x.

Definition hex_digit (d : N) : char16 :=
  if (d <? 10)%N then (48 + d)%N else (55 + d)%N.

Definition percent (b : N) : jsstring :=
  [37%N; hex_digit (b / 16); hex_digit (b mod 16)].

Definition utf8_of_code_point (cp : N) : list N :=
  if (cp <? 128)%N then [cp]
  else if (cp <? 2048)%N then [(192 + cp / 64)%N; (128 + cp mod 64)%N]
  else if (cp <? 65536)%N then
    [(224 + cp / 4096)%N; (128 + (cp / 64) mod 64)%N; (128 + cp mod 64)%N]
  else
    [(240 + cp / 262144)%N; (128 + (cp / 4096) mod 64)%N;
     (128 + (cp / 64) mod 64)%N; (128 + cp mod 64)%N].

(** The characters [encodeURIComponent] leaves as they are. *)
Definition unreserved (c : char16) : bool :=
  ((65 <=? c) && (c <=? 90) || (97 <=? c) && (c <=? 122)
   || (48 <=? c) && (c <=? 57)
   || (c =? 45) || (c =? 95) || (c =? 46) || (c =? 33) || (c =? 126)
   || (c =? 42) || (c =? 39) || (c =? 40) || (c =? 41))%N.

Definition is_high (c : char16) : bool := ((55296 <=? c) && (c <=? 56319))%N.
Definition is_low (c : char16) : bool := ((56320 <=? c) && (c <=? 57343))%N.

Definition escape (cp : N) : jsstring := flat_map percent (utf8_of_code_point cp).

(** [encodeURIComponent]: [None] for the [URIError] of a lone surrogate. *)
Fixpoint encodeURIComponent (x : jsstring) : option jsstring :=
  match x with
  | [] => Some []
  | c :: x' =>
      if unreserved c then option_map (cons c) (encodeURIComponent x')
      else if is_low c then None
      else if is_high c then
        match x' with
        | d :: x'' =>
            if is_low d then
              option_map (app (escape (65536 + (c - 55296) * 1024 + (d - 56320))%N))
                         (encodeURIComponent x'')
            else None
        | [] => None
        end
      else option_map (app (escape c)) (encodeURIComponent x')
  end.

(** [JSON.parse] on the documents of the examples; everything else is
    taken not to parse, which is right for the one other text used. *)
Definition empty_object_text : jsstring := utf16 "{}".

(** A JSON text written with ['] where the text has the double quote. *)
Definition json_text (x : string) : jsstring :=
  map (fun c => if (c =? 39)%N then 34%N else c) (utf16 x).

Definition one_sided_text : jsstring :=
  json_text "{'proposition':{'name':'甲队','members':[]},'opposition':{'name':'','members':[{'name':'王芳','role':'一辩','style':'犀利'},{'name':'李雷','role':'二辩','style':'稳健'}]}}".

Definition one_sided_data : json :=
  JObject
    [(utf16 "proposition",
      JObject [(utf16 "name", JString (utf16 "甲队"));
               (utf16 "members", JArray [])]);
     (utf16 "opposition",
      JObject [(utf16 "name", JString []);
               (utf16 "members",
                JArray [JObject [(utf16 "name", JString (utf16 "王芳"));
                                 (utf16 "role", JString (utf16 "一辩"));
                                 (utf16 "style", JString (utf16 "犀利"))];
                        JObject [(utf16 "name", JString (utf16 "李雷"));
                                 (utf16 "role", JString (utf16 "二辩"));
                                 (utf16 "style", JString (utf16 "稳健"))]])])].

Definition JSON_parse (x : jsstring) : option json :=
  if JS.eqb x empty_object_text then Some (JObject [])
  else if JS.eqb x one_sided_text then Some one_sided_data
  else None.

Definition stamp (n : nat) : App.Stamp := App.mkStamp (utf16 "m" ++ of_nat n) (N.of_nat n).

End Builtins.

(** Sessions for the examples: teams as [initializeTeams] builds them. *)
Module Examples.

Definition debater_at (sd : Side) (i : nat) (nm : jsstring) : Debater :=
  mkDebater (id_prefix sd ++ of_nat i) nm (utf16 "辩手") sd (utf16 "标准")
            (avatar_url (match Builtins.encodeURIComponent (avatar_seed nm sd) with
                         | Some e => e
                         | None => []
                         end) sd).

Definition session_with (prop opp : list jsstring) : DebateSession :=
  mkDebateSession (utf16 "AI") (Some (mkChat [TeamRequest (utf16 "AI")] 0))
    (Some (mkTeam proposition (utf16 "正方")
             (map (fun '(i, nm) => debater_at proposition i nm) (combine (seq 0 (List.length prop)) prop))))
    (Some (mkTeam opposition (utf16 "反方")
             (map (fun '(i, nm) => debater_at opposition i nm) (combine (seq 0 (List.length opp)) opp)))).

(** 林晓宇 for the proposition, 王芳 against. *)
Definition two_debaters : DebateSession := session_with [utf16 "林晓宇"] [utf16 "王芳"].

(** A debater whose name contains the name the moderator goes by. *)
Definition with_a_host : DebateSession :=
  session_with [utf16 "林晓宇"] [utf16 "王芳"; utf16 "金牌主持人李明"].

End Examples.

From Stdlib Require Import DecimalNat.

(* ================================================================== *)
(** ** components/ChatMessage.tsx and components/TeamCard.tsx *)
(* ================================================================== *)

Module ChatMessage.

(** What is put above the bubble: the speaker's name with the badge of
    the side, the heading of the moderator, or nothing. *)
Inductive Header : Type :=
| name_and_badge (speakerName : option jsstring) (badge : jsstring)
| moderator_heading
| no_header.

(** What [ChatMessage] decides for a message: the class names, the source
    of the avatar image ([None] when the image is left out), the header
    and the text handed to the Markdown renderer. *)
Record View : Type := mkView {
  alignClass : jsstring;
  textAlignClass : jsstring;
  bubbleRadiusClass : jsstring;
  bubbleClass : jsstring;
  avatar : option jsstring;
  header : Header;
  body : jsstring
}.

Definition userAvatar : jsstring :=
  utf16 "https://api.dicebear.com/9.x/avataaars/png?seed=User&backgroundColor=c7d2fe".

Definition moderatorAvatar : jsstring :=
  utf16 "https://api.dicebear.com/9.x/notionists/png?seed=Moderator&backgroundColor=slate".

Definition side_is (message : App.Message) (sd : App.SpeakerSide) : bool :=
  match App.speakerSide message, sd with
  | Some (App.of_team proposition), App.of_team proposition => true
  | Some (App.of_team opposition), App.of_team opposition => true
  | Some App.moderator_side, App.moderator_side => true
  | _, _ => false
  end.

Definition render (message : App.Message) : View :=
  let isUser := match App.msg_role message with App.user => true | _ => false end in
  let isProp := side_is message (App.of_team proposition) in
  let isOpp := side_is message (App.of_team opposition) in
  let isMod := side_is message App.moderator_side in
  let '(align, textAlign, radius) :=
    if isOpp || isUser then
      (utf16 "flex-row-reverse", utf16 "items-end", utf16 "rounded-tr-sm")
    else if isMod then
      (utf16 "justify-center", utf16 "items-center", utf16 "rounded-lg")
    else (utf16 "flex-row", utf16 "items-start", utf16 "rounded-tl-sm") in
  let bubble :=
    if isUser then utf16 "bg-indigo-600 text-white"
    else if isProp then utf16 "bg-emerald-100 text-emerald-950"
    else if isOpp then utf16 "bg-rose-100 text-rose-950"
    else utf16 "bg-slate-700/50 text-slate-200 border border-slate-600/50 backdrop-blur-sm" in
  let avatarUrl :=
    if isUser then userAvatar
    else match App.msg_avatarUrl message with
         | Some u => if truthy u then u else moderatorAvatar
         | None => moderatorAvatar
         end in
  mkView align textAlign radius bubble
    (if isMod then None else Some avatarUrl)
    (if negb isUser && negb isMod then
       name_and_badge (App.speakerName message)
                      (if isProp then utf16 "正方" else utf16 "反方")
     else if isMod && negb isUser then moderator_heading
     else no_header)
    (App.msg_content message).

End ChatMessage.

Module TeamCard.

(** [currentSpeakerName === member.name], the name being [undefined] when
    nobody speaks. *)
Definition isSpeaking (currentSpeakerName : option jsstring) (member : Debater) : bool :=
  match currentSpeakerName with
  | Some n => JS.eqb n (name member)
  | None => false
  end.

(** The members of the card that are shown as speaking. *)
Definition speaking (team : Team) (currentSpeakerName : option jsstring) : list Debater :=
  filter (isSpeaking currentSpeakerName) (members team).

(** The keys of the rows of the card. *)
Definition keys (team : Team) : list jsstring := map id (members team).

End TeamCard.

(* ================================================================== *)
(** ** App.tsx: the setup and the handlers of the buttons *)
(* ================================================================== *)

Inductive DebateStatus : Type := idle | setting_up | ongoing | paused | finished.

Module Screen.

(** The state of the component besides what the player touches, the
    session kept in [sessionRef], and the state of the player. *)
Record State : Type := mkState {
  status : DebateStatus;
  ui_topic : jsstring;
  ui_propTeam : option Team;
  ui_oppTeam : option Team;
  sessionRef : option DebateSession;
  turn : App.State
}.

Definition SETUP_FAILED : jsstring := utf16 "无法初始化辩论，请检查网络或重试。".

(** [currentSpeaker || undefined], the name given to the team cards. *)
Definition currentSpeakerName (sc : State) : option jsstring :=
  match App.currentSpeaker (turn sc) with
  | Some n => if truthy n then Some n else None
  | None => None
  end.

Section Handlers.

Variable JSON_parse : jsstring -> option json.
Variable encodeURIComponent : jsstring -> option jsstring.
Variable stamp : nat -> App.Stamp.

(** [triggerNextTurn] up to its [await], called from a closure that has
    [seen] for [isLoadingTurn] while the state has moved on to [st]. *)
Definition triggerNextTurn_seen (seen : bool) (st : App.State) (s : DebateSession)
    (userInterjection : option jsstring) : App.State * DebateSession :=
  if seen then (st, s)
  else
    let st1 := App.add_interjection stamp (App.setIsLoadingTurn st true) userInterjection in
    match nextTurn_enter s userInterjection with
    | Ok s' => (st1, s')
    | _ => (App.setIsLoadingTurn (App.setError st1 (Some App.TURN_FAILED)) false, s)
    end.

(** [handleStartSetup] up to the [await] of [initializeTeams]; [None] when
    the topic is blank and the handler returns at once. *)
Definition handleStartSetup_enter (sc : State) : option State :=
  if truthy (trim (ui_topic sc)) then
    Some (mkState setting_up (ui_topic sc) (ui_propTeam sc) (ui_oppTeam sc)
            (Some (initializeTeams_enter (new_DebateSession (ui_topic sc))))
            (App.mkState [] (App.currentSpeaker (turn sc)) None false))
  else None.

(** [handleStartSetup] from that [await] to the [await] inside
    [triggerNextTurn], the team request ending with [o]; [seen] is the
    [isLoadingTurn] of the render in which the button was clicked.  The
    result is [None] for a run that leaves the types. *)
Definition handleStartSetup_resume (seen : bool) (sc : State) (o : SendOutcome)
  : option State :=
  match sessionRef sc with
  | None => Some sc
  | Some s =>
      match initializeTeams_resume JSON_parse encodeURIComponent s o with
      | (s', Ok (p, q)) =>
          let '(st, s'') := triggerNextTurn_seen seen (turn sc) s' None in
          Some (mkState ongoing (ui_topic sc) (Some p) (Some q) (Some s'') st)
      | (s', Throw _) =>
          Some (mkState idle (ui_topic sc) (ui_propTeam sc) (ui_oppTeam sc) (Some s')
                  (App.setError (turn sc) (Some SETUP_FAILED)))
      | (_, Untyped) => None
      end
  end.

(** A click on the start button in the state [sc], the team request
    ending with [o]. *)
Definition handleStartSetup (sc : State) (o : SendOutcome) : option State :=
  match handleStartSetup_enter sc with
  | None => Some sc
  | Some sc1 => handleStartSetup_resume (App.isLoadingTurn (turn sc)) sc1 o
  end.

(** The button that ends the debate. *)
Definition endDebate (sc : State) : State :=
  mkState idle (ui_topic sc) None None (sessionRef sc)
    (App.mkState [] (App.currentSpeaker (turn sc)) (App.error (turn sc))
                 (App.isLoadingTurn (turn sc))).

(** [handleNextTurnClick], up to the [await] in [triggerNextTurn]. *)
Definition handleNextTurnClick (sc : State) : State :=
  match sessionRef sc with
  | Some s =>
      if negb (App.isLoadingTurn (turn sc)) then
        let '(st, s') := App.triggerNextTurn_enter stamp (turn sc) s None in
        mkState (status sc) (ui_topic sc) (ui_propTeam sc) (ui_oppTeam sc) (Some s') st
      else sc
  | None => sc
  end.

(** [handleInterjection], [text] being the value of the field of the form
    ([None] for [null]), up to the [await] in [triggerNextTurn]. *)
Definition handleInterjection (sc : State) (text : option jsstring) : State :=
  if App.isLoadingTurn (turn sc) then sc
  else
    match text, sessionRef sc with
    | Some t, Some s =>
        if truthy t then
          let '(st, s') := App.triggerNextTurn_enter stamp (turn sc) s (Some t) in
          mkState (status sc) (ui_topic sc) (ui_propTeam sc) (ui_oppTeam sc) (Some s') st
        else sc
    | _, _ => sc
    end.

End Handlers.

End Screen.

(* ================================================================== *)
(** ** Further notions for the statements *)
(* ================================================================== *)

(** Neither the first nor the last code unit of [x] is white space. *)
Definition trimmed (x : jsstring) : Prop :=
  (forall c, hd_error x = Some c -> is_space c = false)
  /\ (forall c, hd_error (rev x) = Some c -> is_space c = false).

(** The line begins with one of the two tags. *)
Definition is_tag_line (line : jsstring) : Prop :=
  begins_with_tag MODERATOR_TAG line \/ begins_with_tag SPEAKER_TAG line.

(** No code unit of [x] is a line feed: [x] is one line. *)
Definition one_line (x : jsstring) : Prop := Forall (fun c => c <> LF) x.

(** The field [k] of the parsed member [m] is the string [v]. *)
Definition has_string (m : json) (k : string) (v : jsstring) : Prop :=
  get m (utf16 k) = Ok (Some (JString v)).

(** The debater [d] is the parsed member [m] on the side [sd]: the three
    strings of [m], the side, and the avatar of the name and the side. *)
Definition debater_of (enc : jsstring -> option jsstring) (sd : Side)
    (d : Debater) (m : json) : Prop :=
  has_string m "name" (name d) /\ has_string m "role" (role d)
  /\ has_string m "style" (style d) /\ side d = sd
  /\ exists seed, enc (avatar_seed (name d) sd) = Some seed
                  /\ avatarUrl d = avatar_url seed sd.

(** The value has none of the two sides: it is no object, or an object
    without the keys, or with a falsy value for them. *)
Definition without_sides (data : json) : Prop :=
  data <> JNull
  /\ (forall v, get data (utf16 "proposition") = Ok v -> json_truthy v = false)
  /\ (forall v, get data (utf16 "opposition") = Ok v -> json_truthy v = false).

(** The line is taken as a tag line by the loop of [nextTurn]. *)
Definition is_tag (line : jsstring) : bool :=
  match modMatch line, spkMatch line with
  | None, None => false
  | _, _ => true
  end.

(** The tag lines of a text, in order. *)
Definition tag_lines (text : jsstring) : list jsstring :=
  filter is_tag (split_lines text).

(** The segments [pre] put before those of a state. *)
Definition shift (pre : list TurnSegment) (st : SegState) : SegState :=
  mkSegState (pre ++ segments st) (currentSpeaker st) (currentType st)
             (currentContent st).

(** A stand-in for [JSON.parse] that knows the texts of a table. *)
Fixpoint parse_table (table : list (jsstring * json)) (x : jsstring) : option json :=
  match table with
  | [] => None
  | (t, v) :: table' => if JS.eqb x t then Some v else parse_table table' x
  end.

(** What holds of a segment emitted while the lines [done] are read: speaker
    and content are trimmed, the moderator type goes with the moderator's
    name and the debater type with the label of a [SPEAKER:] line. *)
Definition well_formed_segment (done : list jsstring) (seg : TurnSegment) : Prop :=
  trimmed (content seg) /\ trimmed (speaker seg)
  /\ (type seg = moderator -> speaker seg = MODERATOR_NAME)
  /\ (type seg = debater ->
      exists line g, In line done /\ spkMatch line = Some g /\ speaker seg = trim g).

(** The same of the state of the loop. *)
Definition well_formed_state (done : list jsstring) (st : SegState) : Prop :=
  Forall (well_formed_segment done) (segments st)
  /\ trimmed (currentSpeaker st)
  /\ (currentType st = moderator -> currentSpeaker st = MODERATOR_NAME)
  /\ (currentType st = debater ->
      exists line g, In line done /\ spkMatch line = Some g
                     /\ currentSpeaker st = trim g).

(** The text of the user message [triggerNextTurn] adds for an
    interjection, if it adds one. *)
Definition interjection_text (userInterjection : option jsstring) : list jsstring :=
  match userInterjection with
  | Some u => if truthy u then [u] else []
  | None => []
  end.

(** The component state with the state of the player replaced. *)
Definition with_turn (sc : Screen.State) (st : App.State) : Screen.State :=
  Screen.mkState (Screen.status sc) (Screen.ui_topic sc) (Screen.ui_propTeam sc)
                 (Screen.ui_oppTeam sc) (Screen.sessionRef sc) st.

(** The view of a message of the moderator with the text [content]. *)
Definition moderator_view (content : jsstring) : ChatMessage.View :=
  ChatMessage.mkView (utf16 "justify-center") (utf16 "items-center") (utf16 "rounded-lg")
    (utf16 "bg-slate-700/50 text-slate-200 border border-slate-600/50 backdrop-blur-sm")
    None ChatMessage.moderator_heading content.


(* ================================================================== *)
(** ** Lemmas on strings *)
(* ================================================================== *)

Lemma split_lines_not_nil (s : jsstring) : split_lines s <> [].
Proof.
  destruct s as [|c s]; simpl; [discriminate|].
  destruct (c =? LF)%N; [discriminate|].
  destruct (split_lines s); discriminate.
Qed.

Lemma join_split_lines (s : jsstring) : join_lines (split_lines s) = s.
Proof.
  induction s as [|c s IH]; simpl; [reflexivity|].
  destruct (c =? LF)%N eqn:E.
  - apply N.eqb_eq in E; subst c.
    destruct (split_lines s) as [|l ls] eqn:Es.
    + now apply split_lines_not_nil in Es.
    + rewrite <- IH. reflexivity.
  - destruct (split_lines s) as [|l ls] eqn:Es.
    + now apply split_lines_not_nil in Es.
    + rewrite <- IH. destruct ls; reflexivity.
Qed.

Lemma drop_while_all (p : char16 -> bool) (s : jsstring) :
  forallb p s = true -> drop_while p s = [].
Proof.
  induction s as [|c s IH]; simpl; [reflexivity|].
  destruct (p c); simpl; [exact IH | discriminate].
Qed.

Lemma trim_all_space (s : jsstring) : all_space s = true -> trim s = [].
Proof.
  intros H. unfold trim. now rewrite (drop_while_all _ _ H).
Qed.


Lemma remove_spaces_all (s : jsstring) : all_space s = true -> remove_spaces s = [].
Proof.
  induction s as [|c s IH]; simpl; [reflexivity|].
  destruct (is_space c); simpl; [exact IH | discriminate].
Qed.

Lemma starts_with_spec (p s : jsstring) :
  starts_with p s = true <-> exists post, s = p ++ post.
Proof.
  revert s; induction p as [|a p IH]; intros s; simpl.
  - split; [now exists s | reflexivity].
  - destruct s as [|b s].
    + split; [discriminate | intros [post H]; discriminate].
    + rewrite andb_true_iff, N.eqb_eq, IH. split.
      * intros [-> [post ->]]. now exists post.
      * intros [post H]. injection H as -> ->. split; [reflexivity | now exists post].
Qed.

Lemma includes_spec (hay needle : jsstring) :
  includes hay needle = true <-> Substring needle hay.
Proof.
  unfold Substring. induction hay as [|c hay IH]; simpl.
  - rewrite orb_false_r, starts_with_spec. split.
    + intros [post H]. now exists [], post.
    + intros [pre [post H]]. destruct pre; [now exists post|discriminate].
  - rewrite orb_true_iff, starts_with_spec, IH. split.
    + intros [[post H] | [pre [post H]]].
      * now exists [], post.
      * exists (c :: pre), post. now rewrite H.
    + intros [pre [post H]]. destruct pre as [|c' pre].
      * left. now exists post.
      * right. injection H as _ H. now exists pre, post.
Qed.

Lemma match_prefix_ci_spec (tag line rest : jsstring) :
  match_prefix_ci tag line = Some rest <->
  exists pre, line = pre ++ rest /\ same_ignoring_case pre tag.
Proof.
  unfold same_ignoring_case.
  revert line; induction tag as [|a tag IH]; intros line; simpl.
  - split.
    + intros [= ->]. now exists [].
    + intros [pre [-> H]]. destruct pre; [reflexivity | discriminate].
  - destruct line as [|b line].
    + split; [discriminate|].
      intros [pre [H1 H2]]. destruct pre; discriminate.
    + destruct (canonicalize a =? canonicalize b)%N eqn:E.
      * apply N.eqb_eq in E. rewrite IH. split.
        -- intros [pre [-> H]]. exists (b :: pre). simpl. now rewrite H, E.
        -- intros [pre [H1 H2]]. destruct pre as [|b' pre]; [discriminate|].
           simpl in *. injection H1 as -> ->. injection H2 as _ H2. now exists pre.
      * apply N.eqb_neq in E. split; [discriminate|].
        intros [pre [H1 H2]]. destruct pre as [|b' pre]; [discriminate|].
        simpl in *. injection H1 as -> ->. injection H2 as H2 _. now symmetry in H2.
Qed.

Lemma match_tag_spec (tag line : jsstring) :
  match_tag tag line <> None <-> begins_with_tag tag line.
Proof.
  unfold match_tag, begins_with_tag.
  destruct (match_prefix_ci tag line) as [rest|] eqn:E.
  - split; [|discriminate]. intros _.
    apply match_prefix_ci_spec in E. destruct E as [pre [H1 H2]]. now exists pre, rest.
  - split; [congruence|]. intros [pre [rest [H1 H2]]].
    assert (match_prefix_ci tag line = Some rest) as H
      by (apply match_prefix_ci_spec; now exists pre).
    congruence.
Qed.

Lemma match_tag_group (tag pre rest : jsstring) :
  same_ignoring_case pre tag ->
  match_tag tag (pre ++ rest) =
    Some (take_while (fun c => negb (is_line_terminator c)) (drop_while is_space rest)).
Proof.
  intros H. unfold match_tag.
  assert (match_prefix_ci tag (pre ++ rest) = Some rest) as ->
    by (apply match_prefix_ci_spec; now exists pre).
  reflexivity.
Qed.

Lemma MODERATOR_TAG_units :
  MODERATOR_TAG = [77; 79; 68; 69; 82; 65; 84; 79; 82; 58]%N.
Proof. reflexivity. Qed.

Lemma SPEAKER_TAG_units : SPEAKER_TAG = [83; 80; 69; 65; 75; 69; 82; 58]%N.
Proof. reflexivity. Qed.

Lemma tags_exclusive (line : jsstring) :
  spkMatch line <> None -> modMatch line = None.
Proof.
  unfold spkMatch, modMatch, match_tag.
  rewrite MODERATOR_TAG_units, SPEAKER_TAG_units.
  destruct line as [|b line]; [reflexivity|].
  cbn [match_prefix_ci].
  change (canonicalize 83%N) with 83%N. change (canonicalize 77%N) with 77%N.
  destruct (83 =? canonicalize b)%N eqn:E1; [|congruence].
  apply N.eqb_eq in E1. rewrite <- E1. reflexivity.
Qed.

(* ================================================================== *)
(** ** The segmenter *)
(* ================================================================== *)

Lemma not_tag_no_match (tag line : jsstring) :
  ~ begins_with_tag tag line -> match_tag tag line = None.
Proof.
  intros H. destruct (match_tag tag line) eqn:E; [|reflexivity].
  exfalso. apply H, match_tag_spec. congruence.
Qed.

Lemma seg_step_plain (st : SegState) (line : jsstring) :
  modMatch line = None -> spkMatch line = None ->
  seg_step st line =
    mkSegState (segments st) (currentSpeaker st) (currentType st)
               (currentContent st ++ [line]).
Proof. intros Hm Hs. unfold seg_step. now rewrite Hm, Hs. Qed.

Lemma fold_plain (lines : list jsstring) (st : SegState) :
  Forall (fun line => modMatch line = None /\ spkMatch line = None) lines ->
  fold_left seg_step lines st =
    mkSegState (segments st) (currentSpeaker st) (currentType st)
               (currentContent st ++ lines).
Proof.
  intros H. revert st. induction H as [|line lines [Hm Hs] _ IH]; intros st; simpl.
  - rewrite app_nil_r. now destruct st.
  - rewrite IH, (@seg_step_plain st line Hm Hs). simpl. now rewrite <- app_assoc.
Qed.


Lemma flush_lines (st : SegState) :
  currentContent st <> [] ->
  flush st =
    mkSegState
      (segments st ++
         [mkTurnSegment (currentSpeaker st) (trim (join_lines (currentContent st)))
                        (currentType st)])
      (currentSpeaker st) (currentType st) [].
Proof. intros H. unfold flush. destruct (currentContent st); [now elim H | reflexivity]. Qed.

Lemma currentContent_flush (st : SegState) : currentContent (flush st) = [].
Proof. unfold flush. destruct (currentContent st) eqn:E; [exact E | reflexivity]. Qed.




(** C6: a text none of whose lines begins with a tag gives exactly one
    segment, of the moderator, whose content is the trimmed text; the empty
    text is such a text. *)
Theorem C6_untagged_text_is_one_moderator_segment (text : jsstring) :
  (forall line, In line (split_lines text) ->
     ~ begins_with_tag MODERATOR_TAG line /\ ~ begins_with_tag SPEAKER_TAG line) ->
  segment_text text = [mkTurnSegment MODERATOR_NAME (trim text) moderator]
  /\ turn_segments (Responded (Some text)) =
       [mkTurnSegment MODERATOR_NAME (trim text) moderator].
Proof.
  intros H.
  assert (segment_text text = [mkTurnSegment MODERATOR_NAME (trim text) moderator]) as E.
  { unfold segment_text, seg_run.
    rewrite fold_plain.
    - cbn [segments currentSpeaker currentType currentContent seg_init app].
      rewrite flush_lines by apply split_lines_not_nil.
      cbn [segments currentSpeaker currentType currentContent app].
      rewrite join_split_lines. reflexivity.
    - apply Forall_forall. intros line Hin. destruct (H line Hin) as [Hm Hs].
      split; now apply not_tag_no_match. }
  split; [exact E | exact E].
Qed.

Lemma C6_untagged_text_is_one_moderator_segment_witness :
  segment_text (utf16 " 服务暂时不可用" ++ LF :: utf16 "moderator 请稍后再试 ") =
    [mkTurnSegment MODERATOR_NAME
       (trim (utf16 " 服务暂时不可用" ++ LF :: utf16 "moderator 请稍后再试 ")) moderator]
  /\ segment_text [] = [mkTurnSegment MODERATOR_NAME [] moderator].
Proof.
  split.
  - apply C6_untagged_text_is_one_moderator_segment.
    intros line [<- | [<- | []]]; split; intros H;
      apply match_tag_spec in H; apply H; reflexivity.
  - apply (C6_untagged_text_is_one_moderator_segment []).
    intros line [<- | []]; split; intros H;
      apply match_tag_spec in H; apply H; reflexivity.
Defined.

Lemma canonicalize_colon (c : char16) : canonicalize c = 58%N -> c = 58%N.
Proof.
  unfold canonicalize.
  destruct ((97 <=? c) && (c <=? 122))%N eqn:E; [|trivial].
  apply andb_true_iff in E. destruct E as [E1 E2].
  apply N.leb_le in E1. apply N.leb_le in E2. lia.
Qed.

Lemma canonicalize_space (c : char16) : is_space c = true -> canonicalize c = c.
Proof.
  intros H. unfold canonicalize.
  destruct ((97 <=? c) && (c <=? 122))%N eqn:E; [|reflexivity].
  apply andb_true_iff in E. destruct E as [E1 E2].
  apply N.leb_le in E1. apply N.leb_le in E2.
  exfalso. unfold is_space in H.
  repeat (apply orb_true_iff in H; destruct H as [H|H]);
    repeat (apply andb_true_iff in H; destruct H as [H H']);
    try apply N.leb_le in H; try apply N.eqb_eq in H; try apply N.leb_le in H'; lia.
Qed.

(** C7: a line is a tag line exactly when it begins with [MODERATOR:] or
    [SPEAKER:], up to the case of the letters; every other line, one with a
    space before the tag or without the colon among them, is appended to
    the content of the current segment; on a [MODERATOR:] line the inline
    text becomes the first content line of a new moderator segment. *)
Theorem C7_tag_lines_and_content_lines (st : SegState) (line : jsstring) :
  (modMatch line <> None <-> begins_with_tag MODERATOR_TAG line)
  /\ (spkMatch line <> None <-> begins_with_tag SPEAKER_TAG line)
  /\ (~ begins_with_tag MODERATOR_TAG line -> ~ begins_with_tag SPEAKER_TAG line ->
      seg_step st line =
        mkSegState (segments st) (currentSpeaker st) (currentType st)
                   (currentContent st ++ [line]))
  /\ (forall c rest, is_space c = true ->
        ~ begins_with_tag MODERATOR_TAG (c :: rest)
        /\ ~ begins_with_tag SPEAKER_TAG (c :: rest))
  /\ (forall rest, hd 0%N rest <> 58%N ->
        ~ begins_with_tag MODERATOR_TAG (utf16 "MODERATOR" ++ rest)
        /\ ~ begins_with_tag SPEAKER_TAG (utf16 "SPEAKER" ++ rest))
  /\ (forall pre rest,
        line = pre ++ rest -> same_ignoring_case pre MODERATOR_TAG ->
        inline_text rest <> [] ->
        seg_step st line =
          mkSegState (segments (flush st)) MODERATOR_NAME moderator [inline_text rest])
  /\ (forall pre rest,
        line = pre ++ rest -> same_ignoring_case pre MODERATOR_TAG ->
        inline_text rest = [] ->
        seg_step st line =
          mkSegState (segments (flush st)) MODERATOR_NAME moderator []).
Proof.
  split; [apply match_tag_spec|].
  split; [apply match_tag_spec|].
  split.
  { intros Hm Hs. apply seg_step_plain; now apply not_tag_no_match. }
  split.
  { intros c rest Hsp. pose proof (canonicalize_space c Hsp) as Hc.
    assert (c <> 77%N /\ c <> 83%N) as [H77 H83]
      by (split; intros ->; discriminate).
    split; intros H; apply match_tag_spec in H; apply H; unfold match_tag;
      [rewrite MODERATOR_TAG_units | rewrite SPEAKER_TAG_units];
      cbn [match_prefix_ci app];
      [change (canonicalize 77%N) with 77%N | change (canonicalize 83%N) with 83%N];
      rewrite Hc.
    - destruct (N.eqb_spec 77 c) as [E|E]; [now elim H77 | reflexivity].
    - destruct (N.eqb_spec 83 c) as [E|E]; [now elim H83 | reflexivity]. }
  split.
  { intros rest Hc.
    split; intros H; apply match_tag_spec in H; apply H; unfold match_tag;
      [rewrite MODERATOR_TAG_units | rewrite SPEAKER_TAG_units];
      (destruct rest as [|c rest]; [reflexivity|]);
      simpl in Hc; cbn -[canonicalize N.eqb];
      change (canonicalize 58%N) with 58%N;
      (destruct (N.eqb_spec 58 (canonicalize c)) as [E|E]; [|reflexivity]);
      symmetry in E; apply canonicalize_colon in E; contradiction. }
  split.
  { intros pre rest -> Hpre Hin.
    unfold seg_step, modMatch. rewrite (match_tag_group rest Hpre).
    fold (inline_text rest).
    destruct (inline_text rest) as [|c r] eqn:E; [now elim Hin|].
    simpl. now rewrite currentContent_flush. }
  intros pre rest -> Hpre Hin.
  unfold seg_step, modMatch. rewrite (match_tag_group rest Hpre).
  fold (inline_text rest). rewrite Hin. simpl. now rewrite currentContent_flush.
Qed.

Lemma C7_tag_lines_and_content_lines_witness :
  seg_step seg_init (utf16 " MODERATOR: 开始") =
    mkSegState [] MODERATOR_NAME moderator [utf16 " MODERATOR: 开始"]
  /\ seg_step seg_init (utf16 "SPEAKER 林晓宇") =
    mkSegState [] MODERATOR_NAME moderator [utf16 "SPEAKER 林晓宇"]
  /\ seg_step seg_init (utf16 "moderator:  大家好 ") =
    mkSegState [] MODERATOR_NAME moderator [utf16 "大家好"].
Proof.
  split; [|split].
  - destruct (C7_tag_lines_and_content_lines seg_init (utf16 " MODERATOR: 开始"))
      as [_ [_ [_ [H4 _]]]].
    destruct (H4 32%N (utf16 "MODERATOR: 开始") eq_refl) as [Hm Hs].
    destruct (C7_tag_lines_and_content_lines seg_init (utf16 " MODERATOR: 开始"))
      as [_ [_ [H3 _]]].
    apply H3; assumption.
  - destruct (C7_tag_lines_and_content_lines seg_init (utf16 "SPEAKER 林晓宇"))
      as [_ [_ [H3 [_ [H5 _]]]]].
    destruct (H5 (utf16 " 林晓宇")) as [_ Hs]; [discriminate|].
    apply H3; [|exact Hs].
    intros [pre [rest [H1 H2]]].
    assert (match_prefix_ci MODERATOR_TAG (utf16 "SPEAKER 林晓宇") = Some rest) as E
      by (apply match_prefix_ci_spec; now exists pre).
    discriminate E.
  - destruct (C7_tag_lines_and_content_lines seg_init (utf16 "moderator:  大家好 "))
      as [_ [_ [_ [_ [_ [H6 _]]]]]].
    apply (H6 (utf16 "moderator:") (utf16 "  大家好 ")); [reflexivity | reflexivity | discriminate].
Defined.

(** The example of the specification: a moderator line with inline text,
    then a speaker with the speech on the next line. *)
Example segment_text_moderator_then_speaker :
  segment_text (utf16 "MODERATOR: 下面有请正方一辩发言。" ++ LF ::
                utf16 "SPEAKER: 林晓宇" ++ LF :: utf16 "谢谢主席。我方观点是...")
  = [mkTurnSegment (utf16 "主持人") (utf16 "下面有请正方一辩发言。") moderator;
     mkTurnSegment (utf16 "林晓宇") (utf16 "谢谢主席。我方观点是...") debater].
Proof. vm_compute. reflexivity. Qed.

(** Text on the line of a [SPEAKER:] tag is all taken as the label, and a
    carriage return at the end of a line is no part of it. *)
Example segment_text_speaker_line :
  segment_text (utf16 "SPEAKER:  林晓宇 (正方一辩) " ++ 13%N :: LF ::
                utf16 "谢谢主席。" ++ [13%N])
  = [mkTurnSegment (utf16 "林晓宇 (正方一辩)") (utf16 "谢谢主席。") debater].
Proof. vm_compute. reflexivity. Qed.

(* ================================================================== *)
(** ** The session: nextTurn and initializeTeams *)
(* ================================================================== *)

Section SessionFacts.

Variable JSON_parse : jsstring -> option json.
Variable encodeURIComponent : jsstring -> option jsstring.

Lemma initializeTeams_unfold (s : DebateSession) (o : SendOutcome) :
  initializeTeams JSON_parse encodeURIComponent s o =
    match o with
    | Failed m => (answered s, Throw (Error m))
    | Responded t =>
        let text := match t with Some x => x | None => [] end in
        if truthy text then
          match JSON_parse text with
          | None => (answered s,
                     Throw (Error (utf16 "Failed to parse debate teams configuration.")))
          | Some data => set_teams encodeURIComponent (answered s) data
          end
        else (answered s, Throw (Error (utf16 "No response from AI")))
    end.
Proof. reflexivity. Qed.

Lemma set_teams_chat (s s' : DebateSession) (data : json) (r : result (Team * Team)) :
  set_teams encodeURIComponent s data = (s', r) -> chat s' = chat s.
Proof.
  unfold set_teams.
  destruct (team_data data) as [[[pd pm] [od om]]| |]; try (intros [= <- _]; reflexivity).
  destruct (build_team encodeURIComponent proposition pd pm); try (intros [= <- _]; reflexivity).
  destruct (build_team encodeURIComponent opposition od om); intros [= <- _]; reflexivity.
Qed.

Lemma initializeTeams_chat (s s' : DebateSession) (o : SendOutcome) (r : result (Team * Team)) :
  initializeTeams JSON_parse encodeURIComponent s o = (s', r) ->
  chat s' = Some (mkChat [TeamRequest (topic s)] 0).
Proof.
  rewrite initializeTeams_unfold.
  destruct o as [t|m]; [|intros [= <- _]; reflexivity].
  cbv zeta. destruct (truthy _); [|intros [= <- _]; reflexivity].
  destruct (JSON_parse _) as [data|]; [|intros [= <- _]; reflexivity].
  intros H. now rewrite (set_teams_chat _ _ H).
Qed.

Lemma make_debater_id (sd : Side) (i : nat) (m : json) (d : Debater) :
  make_debater encodeURIComponent sd i m = Ok d -> id d = id_prefix sd ++ of_nat i.
Proof.
  unfold make_debater, bind.
  destruct (string_field m (utf16 "name")); try discriminate.
  destruct (string_field m (utf16 "role")); try discriminate.
  destruct (string_field m (utf16 "style")); try discriminate.
  destruct (getAvatar encodeURIComponent _ sd); try discriminate.
  intros [= <-]. reflexivity.
Qed.

Lemma map_members_ids (sd : Side) (ms : list json) :
  forall (i : nat) (ds : list Debater),
    map_members encodeURIComponent sd i ms = Ok ds ->
    List.length ds = List.length ms
    /\ map id ds = map (fun j => id_prefix sd ++ of_nat j) (seq i (List.length ms)).
Proof.
  induction ms as [|m ms IH]; intros i ds; simpl.
  - intros [= <-]. split; reflexivity.
  - unfold bind.
    destruct (make_debater encodeURIComponent sd i m) as [d| |] eqn:Ed; try discriminate.
    destruct (map_members encodeURIComponent sd (S i) ms) as [ds'| |] eqn:Eds; try discriminate.
    intros [= <-]. destruct (IH _ _ Eds) as [Hl Hi]. simpl.
    rewrite Hl, Hi, (make_debater_id _ _ _ Ed). split; reflexivity.
Qed.

Lemma build_team_members (sd : Side) (d : json) (ms : list json) (t : Team) :
  build_team encodeURIComponent sd d ms = Ok t ->
  map_members encodeURIComponent sd 0 ms = Ok (members t).
Proof.
  unfold build_team, bind.
  destruct (get d (utf16 "name")); try discriminate.
  destruct (string_or _ _); try discriminate.
  destruct (map_members encodeURIComponent sd 0 ms); try discriminate.
  intros [= <-]. reflexivity.
Qed.

Lemma get_or_empty_object (v : option json) (k : jsstring) :
  exists r, get (or_empty_object v) k = Ok r.
Proof.
  destruct v as [[| b | q | x | items | fs]|]; simpl.
  - now eexists.
  - destruct b; now eexists.
  - destruct (negb _); now eexists.
  - destruct (truthy x); now eexists.
  - now eexists.
  - now eexists.
  - now eexists.
Qed.

Lemma team_data_not_null (data : json) :
  data <> JNull ->
  team_data data =
    Ok ((side_object data proposition,
         push_default proposition (raw_members data proposition)),
        (side_object data opposition,
         push_default opposition (raw_members data opposition))).
Proof.
  intros Hn. unfold team_data, raw_members, side_object, side_key, bind.
  change (side_string proposition) with (utf16 "proposition").
  change (side_string opposition) with (utf16 "opposition").
  destruct (get data (utf16 "proposition")) as [p| |] eqn:Ep;
    [| destruct data; try discriminate; now elim Hn
     | destruct data; discriminate].
  destruct (get data (utf16 "opposition")) as [o| |] eqn:Eo;
    [| destruct data; try discriminate; now elim Hn
     | destruct data; discriminate].
  destruct (get_or_empty_object p (utf16 "members")) as [pm ->].
  destruct (get_or_empty_object o (utf16 "members")) as [om ->].
  reflexivity.
Qed.

Lemma team_data_null : team_data JNull = Throw TypeError.
Proof. reflexivity. Qed.

Lemma set_teams_ok (s : DebateSession) (data : json) (p q : Team) :
  data <> JNull ->
  build_team encodeURIComponent proposition (side_object data proposition)
    (push_default proposition (raw_members data proposition)) = Ok p ->
  build_team encodeURIComponent opposition (side_object data opposition)
    (push_default opposition (raw_members data opposition)) = Ok q ->
  set_teams encodeURIComponent s data = (with_oppTeam (with_propTeam s p) q, Ok (p, q)).
Proof.
  intros Hn Hp Hq. unfold set_teams.
  rewrite (team_data_not_null Hn), Hp, Hq. reflexivity.
Qed.

Lemma set_teams_ok_inv (s s' : DebateSession) (data : json) (p q : Team) :
  set_teams encodeURIComponent s data = (s', Ok (p, q)) ->
  data <> JNull
  /\ build_team encodeURIComponent proposition (side_object data proposition)
       (push_default proposition (raw_members data proposition)) = Ok p
  /\ build_team encodeURIComponent opposition (side_object data opposition)
       (push_default opposition (raw_members data opposition)) = Ok q
  /\ s' = with_oppTeam (with_propTeam s p) q.
Proof.
  intros H.
  assert (data <> JNull) as Hn.
  { intros ->. unfold set_teams in H. rewrite team_data_null in H. discriminate. }
  split; [exact Hn|].
  unfold set_teams in H. rewrite (team_data_not_null Hn) in H.
  destruct (build_team encodeURIComponent proposition _ _) as [p'| |]; try discriminate.
  destruct (build_team encodeURIComponent opposition _ _) as [q'| |]; try discriminate.
  injection H as <- <- <-. repeat split; reflexivity.
Qed.

Lemma build_team_default (sd : Side) (data : json) (seed nm : jsstring) :
  encodeURIComponent (avatar_seed (default_member_name sd) sd) = Some seed ->
  declared_team_name data sd = Ok nm ->
  build_team encodeURIComponent sd (side_object data sd) [default_member sd] =
    Ok (mkTeam sd nm [default_debater sd seed]).
Proof.
  intros He Hn. unfold build_team. unfold declared_team_name in Hn.
  unfold bind in *.
  destruct (get (side_object data sd) (utf16 "name")) as [n| |]; try discriminate.
  rewrite Hn.
  assert (make_debater encodeURIComponent sd 0 (default_member sd) =
            Ok (default_debater sd seed)) as Hd.
  { unfold make_debater, getAvatar, bind.
    destruct sd; cbn [default_member string_field get assoc bind];
      change (JS.eqb (utf16 "name") (utf16 "name")) with true;
      change (JS.eqb (utf16 "role") (utf16 "name")) with false;
      change (JS.eqb (utf16 "role") (utf16 "role")) with true;
      change (JS.eqb (utf16 "style") (utf16 "name")) with false;
      change (JS.eqb (utf16 "style") (utf16 "role")) with false;
      change (JS.eqb (utf16 "style") (utf16 "style")) with true;
      cbv iota; rewrite He; reflexivity. }
  simpl map_members. unfold bind. rewrite Hd. reflexivity.
Qed.

End SessionFacts.




(** C3, as the claim words it, fails: the text of the empty object is not
    of the expected shape, and [initializeTeams] succeeds on it, with both
    teams made of defaults. *)
Lemma C3_empty_object_is_accepted :
  exists s p q,
    initializeTeams Builtins.JSON_parse Builtins.encodeURIComponent
      (new_DebateSession (utf16 "AI")) (Responded (Some (utf16 "{}")))
      = (s, Ok (p, q))
    /\ propTeam s = Some p /\ oppTeam s = Some q
    /\ team_name p = utf16 "正方" /\ map name (members p) = [utf16 "正方辩手 1"]
    /\ team_name q = utf16 "反方" /\ map name (members q) = [utf16 "反方辩手 1"].
Proof.
  do 3 eexists. split; [vm_compute; reflexivity|].
  repeat split; vm_compute; reflexivity.
Qed.

(** C3, amended: [initializeTeams] fails with an error whenever the
    response has no text, has the empty text, or has a text that
    [JSON.parse] rejects; the error reaches the caller and the teams of the
    session stay as they were, absent on a new session.  (A text that is
    valid JSON is not checked against the expected shape.) *)
Theorem C3_unusable_response_is_fatal
    (parse : jsstring -> option json) (enc : jsstring -> option jsstring)
    (s : DebateSession) (o : SendOutcome) :
  unusable parse o ->
  exists s' msg,
    initializeTeams parse enc s o = (s', Throw (Error msg))
    /\ propTeam s' = propTeam s /\ oppTeam s' = oppTeam s
    /\ (s = new_DebateSession (topic s) -> propTeam s' = None /\ oppTeam s' = None)
    /\ (msg = utf16 "No response from AI"
        \/ msg = utf16 "Failed to parse debate teams configuration.").
Proof.
  intros H. rewrite initializeTeams_unfold.
  assert (forall msg,
             msg = utf16 "No response from AI"
             \/ msg = utf16 "Failed to parse debate teams configuration." ->
             exists s' msg',
               (answered s, @Throw (Team * Team) (Error msg)) = (s', Throw (Error msg'))
               /\ propTeam s' = propTeam s /\ oppTeam s' = oppTeam s
               /\ (s = new_DebateSession (topic s) -> propTeam s' = None /\ oppTeam s' = None)
               /\ (msg' = utf16 "No response from AI"
                   \/ msg' = utf16 "Failed to parse debate teams configuration.")) as K.
  { intros msg Hm. exists (answered s), msg.
    split; [reflexivity|]. split; [reflexivity|]. split; [reflexivity|].
    split; [|exact Hm]. intros E. rewrite E. split; reflexivity. }
  destruct o as [[text|]|m]; simpl in H.
  - cbv zeta. destruct H as [-> | Hp].
    + simpl. apply K. now left.
    + destruct (truthy text); [rewrite Hp|]; apply K; [now right | now left].
  - simpl. apply K. now left.
  - contradiction.
Qed.

Lemma C3_unusable_response_is_fatal_witness :
  exists s' msg,
    initializeTeams Builtins.JSON_parse Builtins.encodeURIComponent
      (new_DebateSession (utf16 "AI")) (Responded (Some (utf16 "抱歉，我无法生成。")))
      = (s', Throw (Error msg))
    /\ propTeam s' = None /\ oppTeam s' = None.
Proof.
  destruct (C3_unusable_response_is_fatal
              Builtins.JSON_parse Builtins.encodeURIComponent
              (new_DebateSession (utf16 "AI"))
              (Responded (Some (utf16 "抱歉，我无法生成。"))))
    as [s' [msg [H [_ [_ [Hnew _]]]]]].
  - right. vm_compute. reflexivity.
  - exists s', msg. split; [exact H|]. apply Hnew. reflexivity.
Defined.

(** C8: when [initializeTeams] succeeds, each team has as many members as
    the parsed list of its side, or one if that list is missing or empty,
    and the ids of its members are the prefix of the side followed by their
    positions; and a missing or empty list does not make it fail: with the
    other side and the team names as they should be, it succeeds and the
    team of the side consists of the default member alone. *)
Theorem C8_default_member_and_sequential_ids
    (parse : jsstring -> option json) (enc : jsstring -> option jsstring)
    (s : DebateSession) (text : jsstring) (data : json) :
  truthy text = true ->
  parse text = Some data ->
  (forall s' pq,
      initializeTeams parse enc s (Responded (Some text)) = (s', Ok pq) ->
      forall sd,
        List.length (members (team_of sd pq))
          = List.length (push_default sd (raw_members data sd))
        /\ (raw_members data sd = [] -> List.length (members (team_of sd pq)) = 1)
        /\ map id (members (team_of sd pq))
             = sequential_ids sd (List.length (members (team_of sd pq))))
  /\ (forall sd seed nm t',
        data <> JNull ->
        raw_members data sd = [] ->
        enc (avatar_seed (default_member_name sd) sd) = Some seed ->
        declared_team_name data sd = Ok nm ->
        build_team enc (other sd) (side_object data (other sd))
          (push_default (other sd) (raw_members data (other sd))) = Ok t' ->
        exists s' pq,
          initializeTeams parse enc s (Responded (Some text)) = (s', Ok pq)
          /\ propTeam s' = Some (fst pq) /\ oppTeam s' = Some (snd pq)
          /\ team_of sd pq = mkTeam sd nm [default_debater sd seed]
          /\ team_of (other sd) pq = t').
Proof.
  intros Ht Hp. rewrite initializeTeams_unfold. cbv zeta. rewrite Ht, Hp. split.
  - intros s' [p q] H sd.
    destruct (set_teams_ok_inv _ _ _ H) as [Hn [Bp [Bq _]]].
    assert (build_team enc sd (side_object data sd)
              (push_default sd (raw_members data sd)) = Ok (team_of sd (p, q))) as B
      by (destruct sd; assumption).
    apply build_team_members, map_members_ids in B. destruct B as [Hl Hi].
    split; [exact Hl|]. split.
    + intros Hr. rewrite Hl, Hr. reflexivity.
    + unfold sequential_ids. rewrite Hi, Hl. reflexivity.
  - intros sd seed nm t' Hn Hr He Hnm Ho.
    pose proof (build_team_default enc sd data He Hnm) as Hd.
    assert (push_default sd (raw_members data sd) = [default_member sd]) as Hpd
      by (rewrite Hr; reflexivity).
    rewrite <- Hpd in Hd.
    destruct sd; simpl other in Ho.
    + exists (with_oppTeam (with_propTeam (answered s) (mkTeam proposition nm
                [default_debater proposition seed])) t'),
             (mkTeam proposition nm [default_debater proposition seed], t').
      split; [now apply set_teams_ok|]. repeat split.
    + exists (with_oppTeam (with_propTeam (answered s) t')
                (mkTeam opposition nm [default_debater opposition seed])),
             (t', mkTeam opposition nm [default_debater opposition seed]).
      split; [now apply set_teams_ok|]. repeat split.
Qed.

Lemma C8_default_member_and_sequential_ids_witness :
  exists s' p q,
    initializeTeams Builtins.JSON_parse Builtins.encodeURIComponent
      (new_DebateSession (utf16 "AI")) (Responded (Some Builtins.one_sided_text))
      = (s', Ok (p, q))
    /\ map name (members p) = [utf16 "正方辩手 1"]
    /\ map id (members p) = [utf16 "prop-0"]
    /\ map id (members q) = [utf16 "opp-0"; utf16 "opp-1"].
Proof.
  destruct (C8_default_member_and_sequential_ids
              Builtins.JSON_parse Builtins.encodeURIComponent
              (new_DebateSession (utf16 "AI"))
              Builtins.one_sided_text (data := Builtins.one_sided_data))
    as [Hids Hdefault].
  - vm_compute. reflexivity.
  - vm_compute. reflexivity.
  - destruct (Hdefault proposition
                (utf16 "%E6%AD%A3%E6%96%B9%E8%BE%A9%E6%89%8B%201-proposition")
                (utf16 "甲队")
                (mkTeam opposition (utf16 "反方")
                   [mkDebater (utf16 "opp-0") (utf16 "王芳") (utf16 "一辩") opposition
                      (utf16 "犀利")
                      (avatar_url (utf16 "%E7%8E%8B%E8%8A%B3-opposition") opposition);
                    mkDebater (utf16 "opp-1") (utf16 "李雷") (utf16 "二辩") opposition
                      (utf16 "稳健")
                      (avatar_url (utf16 "%E6%9D%8E%E9%9B%B7-opposition") opposition)]))
      as [s' [[p q] [E [_ [_ [Tp Tq]]]]]].
    + discriminate.
    + vm_compute. reflexivity.
    + vm_compute. reflexivity.
    + vm_compute. reflexivity.
    + vm_compute. reflexivity.
    + exists s', p, q. split; [exact E|].
      simpl in Tp, Tq. subst p q. clear Hids. repeat split; vm_compute; reflexivity.
Defined.

(* ================================================================== *)
(** ** The player: speaker resolution *)
(* ================================================================== *)

Section PlayerFacts.

Variable toLowerCase : jsstring -> jsstring.

Lemma qualifies_spec (label : jsstring) (m : Debater) :
  App.qualifies toLowerCase (App.normalize toLowerCase label) m = true
  <-> Qualifies toLowerCase label m.
Proof.
  unfold App.qualifies, Qualifies. cbv zeta.
  rewrite orb_true_iff, !includes_spec. tauto.
Qed.

Lemma find_first_such (f : Debater -> bool) (P : Debater -> Prop) (l : list Debater) :
  (forall x, f x = true <-> P x) ->
  match find f l with
  | Some m => first_such P l m
  | None => Forall (fun x => ~ P x) l
  end.
Proof.
  intros Hf. induction l as [|x l IH]; simpl; [constructor|].
  destruct (f x) eqn:E.
  - constructor. now apply Hf.
  - assert (~ P x) as Hn by (intros Hp; apply Hf in Hp; congruence).
    destruct (find f l); now constructor.
Qed.

Lemma first_such_find (f : Debater -> bool) (P : Debater -> Prop) (l : list Debater)
    (m : Debater) :
  (forall x, f x = true <-> P x) -> first_such P l m -> find f l = Some m.
Proof.
  intros Hf. induction 1 as [m l Hp | x m l Hn _ IH]; simpl.
  - apply Hf in Hp. now rewrite Hp.
  - destruct (f x) eqn:E; [apply Hf in E; contradiction | exact IH].
Qed.

Lemma none_such_find (f : Debater -> bool) (P : Debater -> Prop) (l : list Debater) :
  (forall x, f x = true <-> P x) -> Forall (fun x => ~ P x) l -> find f l = None.
Proof.
  intros Hf. induction 1 as [|x l Hn _ IH]; simpl; [reflexivity|].
  destruct (f x) eqn:E; [apply Hf in E; contradiction | exact IH].
Qed.

Lemma first_such_holds (P : Debater -> Prop) (l : list Debater) (m : Debater) :
  first_such P l m -> In m l /\ P m.
Proof.
  induction 1 as [m l Hp | x m l _ _ [Hi Hp]]; split; simpl; auto.
Qed.

Lemma find_member_roster (t : option Team) (n : jsstring) :
  App.find_member toLowerCase t n = find (App.qualifies toLowerCase n) (roster t).
Proof. destruct t; reflexivity. Qed.

Lemma attribute_proposition (s : DebateSession) (seg : TurnSegment) (m : Debater) :
  first_such (Qualifies toLowerCase (speaker seg)) (roster (propTeam s)) m ->
  App.attribute toLowerCase s seg = attributed_to proposition m.
Proof.
  intros H. unfold App.attribute. cbv zeta. rewrite !find_member_roster.
  rewrite (@first_such_find _ _ _ _ (qualifies_spec (speaker seg)) H). reflexivity.
Qed.

Lemma attribute_opposition (s : DebateSession) (seg : TurnSegment) (m : Debater) :
  Forall (fun x => ~ Qualifies toLowerCase (speaker seg) x) (roster (propTeam s)) ->
  first_such (Qualifies toLowerCase (speaker seg)) (roster (oppTeam s)) m ->
  App.attribute toLowerCase s seg = attributed_to opposition m.
Proof.
  intros Hp H. unfold App.attribute. cbv zeta. rewrite !find_member_roster.
  rewrite (@none_such_find _ _ _ (qualifies_spec (speaker seg)) Hp).
  rewrite (@first_such_find _ _ _ _ (qualifies_spec (speaker seg)) H). reflexivity.
Qed.

Lemma attribute_nobody (s : DebateSession) (seg : TurnSegment) :
  Forall (fun x => ~ Qualifies toLowerCase (speaker seg) x) (roster (propTeam s)) ->
  Forall (fun x => ~ Qualifies toLowerCase (speaker seg) x) (roster (oppTeam s)) ->
  App.attribute toLowerCase s seg = unattributed (speaker seg).
Proof.
  intros Hp Ho. unfold App.attribute. cbv zeta. rewrite !find_member_roster.
  rewrite (@none_such_find _ _ _ (qualifies_spec (speaker seg)) Hp).
  rewrite (@none_such_find _ _ _ (qualifies_spec (speaker seg)) Ho). reflexivity.
Qed.

(** The three cases above are all the cases. *)
Lemma attribute_cases (s : DebateSession) (seg : TurnSegment) :
  (exists m, first_such (Qualifies toLowerCase (speaker seg)) (roster (propTeam s)) m
             /\ App.attribute toLowerCase s seg = attributed_to proposition m)
  \/ (exists m, Forall (fun x => ~ Qualifies toLowerCase (speaker seg) x) (roster (propTeam s))
                /\ first_such (Qualifies toLowerCase (speaker seg)) (roster (oppTeam s)) m
                /\ App.attribute toLowerCase s seg = attributed_to opposition m)
  \/ (Forall (fun x => ~ Qualifies toLowerCase (speaker seg) x) (roster (propTeam s))
      /\ Forall (fun x => ~ Qualifies toLowerCase (speaker seg) x) (roster (oppTeam s))
      /\ App.attribute toLowerCase s seg = unattributed (speaker seg)).
Proof.
  pose proof (@find_first_such _ _ (roster (propTeam s)) (qualifies_spec (speaker seg))) as Hp.
  pose proof (@find_first_such _ _ (roster (oppTeam s)) (qualifies_spec (speaker seg))) as Ho.
  destruct (find _ (roster (propTeam s))) as [m|].
  - left. exists m. split; [exact Hp | now apply attribute_proposition].
  - destruct (find _ (roster (oppTeam s))) as [m|].
    + right; left. exists m. repeat split; try assumption. now apply attribute_opposition.
    + right; right. repeat split; try assumption. now apply attribute_nobody.
Qed.

Lemma normalize_no_space (x : jsstring) :
  Forall (fun c => is_space c = false) (App.normalize toLowerCase x).
Proof.
  unfold App.normalize, remove_spaces. apply Forall_forall. intros c Hc.
  apply filter_In in Hc. destruct Hc as [_ Hc]. now apply negb_true_iff in Hc.
Qed.

Lemma not_Qualifies (label : jsstring) (m : Debater) :
  App.qualifies toLowerCase (App.normalize toLowerCase label) m = false ->
  ~ Qualifies toLowerCase label m.
Proof. intros E H. apply qualifies_spec in H. congruence. Qed.

End PlayerFacts.

(** C5: the label and the names are compared after lower-casing and
    removal of all white space; the segment goes to the first member of the
    proposition roster whose name contains the label or is contained in
    it, failing that to the first such member of the opposition roster, and
    is shown under the stored name of that member; with no such member in
    either roster it is shown as the moderator's, under its label. *)
Theorem C5_first_qualifying_member_wins
    (toLowerCase : jsstring -> jsstring) (s : DebateSession) (seg : TurnSegment) :
  (forall x, App.normalize toLowerCase x = remove_spaces (toLowerCase x)
             /\ Forall (fun c => is_space c = false) (App.normalize toLowerCase x))
  /\ (forall m,
        first_such (Qualifies toLowerCase (speaker seg)) (roster (propTeam s)) m ->
        App.attribute toLowerCase s seg = attributed_to proposition m)
  /\ (forall m,
        Forall (fun x => ~ Qualifies toLowerCase (speaker seg) x) (roster (propTeam s)) ->
        first_such (Qualifies toLowerCase (speaker seg)) (roster (oppTeam s)) m ->
        App.attribute toLowerCase s seg = attributed_to opposition m)
  /\ (Forall (fun x => ~ Qualifies toLowerCase (speaker seg) x) (roster (propTeam s)) ->
      Forall (fun x => ~ Qualifies toLowerCase (speaker seg) x) (roster (oppTeam s)) ->
      App.attribute toLowerCase s seg = unattributed (speaker seg)).
Proof.
  split; [intros x; split; [reflexivity | apply normalize_no_space]|].
  split; [intros m; apply attribute_proposition|].
  split; [intros m; apply attribute_opposition | apply attribute_nobody].
Qed.

Lemma C5_first_qualifying_member_wins_witness :
  App.attribute Builtins.toLowerCase Examples.two_debaters
    (mkTurnSegment (utf16 "林晓宇 ") (utf16 "谢谢主席。") debater)
    = attributed_to proposition (Examples.debater_at proposition 0 (utf16 "林晓宇"))
  /\ App.attribute Builtins.toLowerCase Examples.two_debaters
       (mkTurnSegment (utf16 "王芳同学") (utf16 "我方认为不然。") debater)
     = attributed_to opposition (Examples.debater_at opposition 0 (utf16 "王芳"))
  /\ App.attribute Builtins.toLowerCase Examples.two_debaters
       (mkTurnSegment (utf16 "张三") (utf16 "大家好。") debater)
     = unattributed (utf16 "张三").
Proof.
  split; [|split].
  - apply C5_first_qualifying_member_wins.
    apply first_here. apply qualifies_spec. vm_compute. reflexivity.
  - apply C5_first_qualifying_member_wins.
    + repeat constructor. apply not_Qualifies. vm_compute. reflexivity.
    + apply first_here. apply qualifies_spec. vm_compute. reflexivity.
  - apply C5_first_qualifying_member_wins.
    + repeat constructor. apply not_Qualifies. vm_compute. reflexivity.
    + repeat constructor. apply not_Qualifies. vm_compute. reflexivity.
Defined.

Lemma speaker_tag_without_name (st : SegState) (ws : jsstring) :
  all_space ws = true ->
  seg_step st (SPEAKER_TAG ++ ws) =
    mkSegState (segments (flush st)) [] debater [].
Proof.
  intros H.
  assert (spkMatch (SPEAKER_TAG ++ ws) = Some []) as Hs.
  { unfold spkMatch. rewrite match_tag_group by reflexivity.
    now rewrite (drop_while_all _ _ H). }
  assert (modMatch (SPEAKER_TAG ++ ws) = None) as Hm
    by (apply tags_exclusive; congruence).
  unfold seg_step. rewrite Hm, Hs. now rewrite currentContent_flush.
Qed.

(** C9: a label that is empty or all white space is normalized to the
    empty string, which occurs in every name, so that its segment goes to
    the first member of the proposition roster; a [SPEAKER:] line without a
    name gives the empty label. *)
Theorem C9_empty_label_goes_to_first_proposition_member
    (toLowerCase : jsstring -> jsstring) (s : DebateSession) (seg : TurnSegment)
    (p : Team) (m : Debater) (rest : list Debater) :
  (forall x, all_space x = true -> all_space (toLowerCase x) = true) ->
  all_space (speaker seg) = true ->
  propTeam s = Some p ->
  members p = m :: rest ->
  App.normalize toLowerCase (speaker seg) = []
  /\ (forall x, Qualifies toLowerCase (speaker seg) x)
  /\ App.attribute toLowerCase s seg = attributed_to proposition m
  /\ App.attribute toLowerCase s seg <> unattributed (speaker seg)
  /\ (forall st ws, all_space ws = true ->
        currentSpeaker (seg_step st (SPEAKER_TAG ++ ws)) = []
        /\ currentType (seg_step st (SPEAKER_TAG ++ ws)) = debater).
Proof.
  intros Hlow Hsp Hp Hm.
  assert (App.normalize toLowerCase (speaker seg) = []) as Hn
    by (apply remove_spaces_all, Hlow, Hsp).
  assert (forall x, Qualifies toLowerCase (speaker seg) x) as Hq.
  { intros x. right. rewrite Hn. now exists [], (App.normalize toLowerCase (name x)). }
  assert (App.attribute toLowerCase s seg = attributed_to proposition m) as Ha.
  { apply attribute_proposition. rewrite Hp. simpl. rewrite Hm. apply first_here, Hq. }
  split; [exact Hn|]. split; [exact Hq|]. split; [exact Ha|].
  split; [rewrite Ha; discriminate|].
  intros st ws Hws. now rewrite (speaker_tag_without_name st ws Hws).
Qed.

Lemma Builtins_toLowerCase_space (x : jsstring) :
  all_space x = true -> all_space (Builtins.toLowerCase x) = true.
Proof.
  unfold all_space, Builtins.toLowerCase.
  induction x as [|c x IH]; simpl; [reflexivity|].
  intros H. apply andb_true_iff in H. destruct H as [Hc Hx].
  rewrite (IH Hx), andb_true_r.
  destruct ((65 <=? c) && (c <=? 90))%N eqn:E; [|exact Hc].
  apply andb_true_iff in E. destruct E as [E1 E2].
  apply N.leb_le in E1. apply N.leb_le in E2.
  exfalso. unfold is_space in Hc.
  repeat (apply orb_true_iff in Hc; destruct Hc as [Hc|Hc]);
    repeat (apply andb_true_iff in Hc; destruct Hc as [Hc Hc']);
    try apply N.leb_le in Hc; try apply N.eqb_eq in Hc; try apply N.leb_le in Hc'; lia.
Qed.

Lemma C9_empty_label_goes_to_first_proposition_member_witness :
  segment_text (utf16 "SPEAKER:" ++ LF :: utf16 "我来说两句。")
    = [mkTurnSegment [] (utf16 "我来说两句。") debater]
  /\ App.attribute Builtins.toLowerCase Examples.two_debaters
       (mkTurnSegment [] (utf16 "我来说两句。") debater)
     = attributed_to proposition (Examples.debater_at proposition 0 (utf16 "林晓宇")).
Proof.
  split; [vm_compute; reflexivity|].
  apply (C9_empty_label_goes_to_first_proposition_member
           Builtins.toLowerCase Examples.two_debaters
           (mkTurnSegment [] (utf16 "我来说两句。") debater)
           (p := mkTeam proposition (utf16 "正方")
                   [Examples.debater_at proposition 0 (utf16 "林晓宇")])
           (rest := [])).
  - exact Builtins_toLowerCase_space.
  - reflexivity.
  - reflexivity.
  - reflexivity.
Defined.

Section PlayedSegment.

Variable toLowerCase : jsstring -> jsstring.
Variable stamp : nat -> App.Stamp.

Lemma play_segment_shows (s : DebateSession) (st : App.State) (seg : TurnSegment) :
  let a := App.attribute toLowerCase s seg in
  let k := stamp (List.length (App.messages st)) in
  App.play_segment toLowerCase stamp s st seg =
    App.mkState
      (App.messages st ++
         [App.mkMessage (App.stamp_uid k) App.model (Some (App.attr_speakerName a))
            (Some (App.attr_side a)) (App.attr_avatarUrl a) (content seg)
            (App.stamp_now k)])
      (App.attr_current a) (App.error st) (App.isLoadingTurn st).
Proof. reflexivity. Qed.

End PlayedSegment.

(** C10: the attribution of a segment is a function of its speaker string
    alone, not of its type.  So a moderator segment, whose speaker is 主持人,
    is matched against the rosters as well: when the name of some member
    contains 主持人 or is contained in it after normalization, the segment
    is shown as spoken by the first such member (proposition first), on the
    side of that member and under the stored name, and that member becomes
    the current speaker. *)
Theorem C10_moderator_segments_are_matched_too
    (toLowerCase : jsstring -> jsstring) (stamp : nat -> App.Stamp)
    (s : DebateSession) (seg : TurnSegment) :
  (forall seg', speaker seg' = speaker seg ->
     App.attribute toLowerCase s seg' = App.attribute toLowerCase s seg)
  /\ (type seg = moderator -> speaker seg = MODERATOR_NAME ->
      forall m,
        In m (roster (propTeam s) ++ roster (oppTeam s)) ->
        Qualifies toLowerCase MODERATOR_NAME m ->
        exists sd m',
          first_such (Qualifies toLowerCase MODERATOR_NAME)
                     (roster (propTeam s) ++ roster (oppTeam s)) m'
          /\ In m' (roster (match sd with
                            | proposition => propTeam s
                            | opposition => oppTeam s
                            end))
          /\ App.attribute toLowerCase s seg = attributed_to sd m'
          /\ forall st,
               let st' := App.play_segment toLowerCase stamp s st seg in
               App.currentSpeaker st' = Some (name m')
               /\ exists uid now,
                    App.messages st' =
                      App.messages st ++
                        [App.mkMessage uid App.model (Some (name m'))
                           (Some (App.of_team sd)) (Some (avatarUrl m'))
                           (content seg) now]).
Proof.
  split.
  { intros seg' E. unfold App.attribute. now rewrite E. }
  intros _ Hsp m Hin Hq.
  assert (forall sd m',
             App.attribute toLowerCase s seg = attributed_to sd m' ->
             forall st,
               let st' := App.play_segment toLowerCase stamp s st seg in
               App.currentSpeaker st' = Some (name m')
               /\ exists uid now,
                    App.messages st' =
                      App.messages st ++
                        [App.mkMessage uid App.model (Some (name m'))
                           (Some (App.of_team sd)) (Some (avatarUrl m'))
                           (content seg) now]) as Hplay.
  { intros sd m' Ha st. cbv zeta. rewrite play_segment_shows. cbv zeta. rewrite Ha.
    split; [reflexivity|]. now do 2 eexists. }
  destruct (attribute_cases toLowerCase s seg) as [[m' [Hf Ha]] | [[m' [Hn [Hf Ha]]] | [Hn [Hn' _]]]];
    rewrite Hsp in *.
  - exists proposition, m'. split; [|split; [|split]].
    + clear - Hf. induction Hf; [now constructor | now constructor].
    + now apply first_such_holds in Hf.
    + exact Ha.
    + now apply Hplay.
  - exists opposition, m'. split; [|split; [|split]].
    + clear - Hn Hf. induction Hn; simpl; [exact Hf | now constructor].
    + now apply first_such_holds in Hf.
    + exact Ha.
    + now apply Hplay.
  - exfalso. apply in_app_or in Hin. rewrite Forall_forall in Hn, Hn'.
    destruct Hin as [Hin | Hin]; [exact (Hn m Hin Hq) | exact (Hn' m Hin Hq)].
Qed.

Lemma C10_moderator_segments_are_matched_too_witness :
  segment_text (utf16 "MODERATOR: 下面有请反方三辩。")
    = [mkTurnSegment MODERATOR_NAME (utf16 "下面有请反方三辩。") moderator]
  /\ exists sd m',
       App.attribute Builtins.toLowerCase Examples.with_a_host
         (mkTurnSegment MODERATOR_NAME (utf16 "下面有请反方三辩。") moderator)
       = attributed_to sd m'
       /\ sd = opposition /\ name m' = utf16 "金牌主持人李明".
Proof.
  split; [vm_compute; reflexivity|].
  destruct (C10_moderator_segments_are_matched_too Builtins.toLowerCase Builtins.stamp
              Examples.with_a_host
              (mkTurnSegment MODERATOR_NAME (utf16 "下面有请反方三辩。") moderator))
    as [_ H].
  destruct (H eq_refl eq_refl (Examples.debater_at opposition 1 (utf16 "金牌主持人李明")))
    as [sd [m' [_ [_ [Ha _]]]]].
  - simpl. right. right. left. reflexivity.
  - apply qualifies_spec. vm_compute. reflexivity.
  - exists sd, m'. split; [exact Ha|].
    assert (App.attribute Builtins.toLowerCase Examples.with_a_host
              (mkTurnSegment MODERATOR_NAME (utf16 "下面有请反方三辩。") moderator)
            = attributed_to opposition
                (Examples.debater_at opposition 1 (utf16 "金牌主持人李明"))) as E
      by (vm_compute; reflexivity).
    rewrite E in Ha.
    pose proof (f_equal App.attr_side Ha) as Hsd.
    pose proof (f_equal App.attr_speakerName Ha) as Hname.
    cbn [App.attr_side App.attr_speakerName attributed_to] in Hsd, Hname.
    split; [destruct sd; [discriminate Hsd | reflexivity] | symmetry; exact Hname].
Defined.

(* ================================================================== *)
(** ** Requests in flight *)
(* ================================================================== *)


Section Guard.

Variable toLowerCase : jsstring -> jsstring.
Variable stamp : nat -> App.Stamp.





End Guard.



(* ================================================================== *)
(** ** More on the segmenter *)
(* ================================================================== *)

Lemma hd_drop_while (p : char16 -> bool) (s : jsstring) (c : char16) :
  hd_error (drop_while p s) = Some c -> p c = false.
Proof.
  induction s as [|a s IH]; simpl; [discriminate|].
  destruct (p a) eqn:E; [exact IH|]. simpl. now intros [= <-].
Qed.

Lemma drop_while_app_stop (p : char16 -> bool) (l r : jsstring) (c : char16) :
  p c = false -> drop_while p (l ++ c :: r) = drop_while p l ++ c :: r.
Proof.
  intros H. induction l as [|a l IH]; simpl; [now rewrite H|].
  destruct (p a); [exact IH | reflexivity].
Qed.

Lemma trim_trimmed (x : jsstring) : trimmed (trim x).
Proof.
  unfold trimmed, trim. split.
  - intros c. destruct (drop_while is_space x) as [|a y] eqn:E; [discriminate|].
    assert (is_space a = false) as Ha
      by (apply (@hd_drop_while is_space x); now rewrite E).
    simpl rev. rewrite (@drop_while_app_stop _ (rev y) [] a Ha).
    rewrite rev_app_distr. simpl. now intros [= <-].
  - intros c. rewrite rev_involutive. apply hd_drop_while.
Qed.

Lemma trimmed_MODERATOR_NAME : trimmed MODERATOR_NAME.
Proof. split; intros c [= <-]; reflexivity. Qed.

Lemma well_formed_segment_more (done more : list jsstring) (seg : TurnSegment) :
  well_formed_segment done seg -> well_formed_segment (done ++ more) seg.
Proof.
  intros [H1 [H2 [H3 H4]]]. repeat split; try assumption.
  - apply H1. - apply H1. - apply H2. - apply H2.
  - intros Hd. destruct (H4 Hd) as [line [g [Hin H]]].
    exists line, g. split; [apply in_or_app; now left | exact H].
Qed.

Lemma well_formed_state_more (done more : list jsstring) (st : SegState) :
  well_formed_state done st -> well_formed_state (done ++ more) st.
Proof.
  intros [H1 [H2 [H3 H4]]]. split; [|split; [exact H2 | split; [exact H3|]]].
  - eapply Forall_impl; [|exact H1]. intros seg. apply well_formed_segment_more.
  - intros Hd. destruct (H4 Hd) as [line [g [Hin H]]].
    exists line, g. split; [apply in_or_app; now left | exact H].
Qed.

Lemma well_formed_flush (done : list jsstring) (st : SegState) :
  well_formed_state done st -> well_formed_state done (flush st).
Proof.
  intros [H1 [H2 [H3 H4]]]. unfold flush.
  destruct (currentContent st) as [|l ls]; [exact (conj H1 (conj H2 (conj H3 H4)))|].
  split; [|exact (conj H2 (conj H3 H4))].
  simpl. apply Forall_app. split; [exact H1|]. constructor; [|constructor].
  split; [apply trim_trimmed|]. simpl. exact (conj H2 (conj H3 H4)).
Qed.

Lemma well_formed_step (done : list jsstring) (st : SegState) (line : jsstring) :
  well_formed_state done st -> well_formed_state (done ++ [line]) (seg_step st line).
Proof.
  intros H. apply well_formed_flush in H as Hf.
  apply (@well_formed_state_more done [line]) in Hf.
  apply (@well_formed_state_more done [line]) in H.
  unfold seg_step.
  destruct (modMatch line) as [g|] eqn:Em.
  - destruct Hf as [F _]. split; [exact F|]. simpl.
    split; [apply trimmed_MODERATOR_NAME|]. split; [reflexivity | discriminate].
  - destruct (spkMatch line) as [g|] eqn:Es.
    + destruct Hf as [F _]. split; [exact F|]. simpl.
      split; [apply trim_trimmed|]. split; [discriminate|].
      intros _. exists line, g. split; [apply in_or_app; right; now left|].
      split; [exact Es | reflexivity].
    + destruct H as [F [H2 [H3 H4]]]. exact (conj F (conj H2 (conj H3 H4))).
Qed.

Lemma well_formed_fold (lines done : list jsstring) (st : SegState) :
  well_formed_state done st ->
  well_formed_state (done ++ lines) (fold_left seg_step lines st).
Proof.
  revert done st. induction lines as [|line lines IH]; intros done st H; simpl.
  - now rewrite app_nil_r.
  - change (line :: lines) with ([line] ++ lines). rewrite app_assoc.
    apply IH, well_formed_step, H.
Qed.

Lemma well_formed_run (text : jsstring) :
  Forall (well_formed_segment (split_lines text)) (segments (seg_run text)).
Proof.
  unfold seg_run.
  assert (well_formed_state [] seg_init) as H0.
  { split; [constructor|]. split; [apply trimmed_MODERATOR_NAME|].
    split; [reflexivity | discriminate]. }
  apply (@well_formed_fold (split_lines text)) in H0.
  apply well_formed_flush in H0. exact (proj1 H0).
Qed.

(** X1: the speaker of every segment [nextTurn] makes of a response text
    is trimmed, and so is the content, unless the result is the one
    fallback segment, which holds the text as it came. *)
Theorem X1_segments_are_trimmed (text : jsstring) (seg : TurnSegment) :
  In seg (segment_text text) ->
  trimmed (speaker seg)
  /\ (trimmed (content seg)
      \/ segment_text text = [mkTurnSegment MODERATOR_NAME text moderator]).
Proof.
  unfold segment_text. cbv zeta.
  pose proof (well_formed_run text) as W.
  destruct (segments (seg_run text)) as [|s0 l] eqn:E.
  - intros [<- | []]. split; [apply trimmed_MODERATOR_NAME | now right].
  - intros Hin. rewrite Forall_forall in W.
    destruct (W seg Hin) as [Hc [Hs _]]. split; [exact Hs | now left].
Qed.

Lemma X1_segments_are_trimmed_witness :
  let text := utf16 "  MODERATOR 开始  " in
  segment_text text = [mkTurnSegment MODERATOR_NAME (utf16 "MODERATOR 开始") moderator]
  /\ trimmed (utf16 "MODERATOR 开始").
Proof.
  intros text.
  assert (segment_text text
          = [mkTurnSegment MODERATOR_NAME (utf16 "MODERATOR 开始") moderator]) as E
    by (vm_compute; reflexivity).
  split; [exact E|].
  destruct (@X1_segments_are_trimmed text
              (mkTurnSegment MODERATOR_NAME (utf16 "MODERATOR 开始") moderator))
    as [_ [H | H]].
  - rewrite E. now left.
  - exact H.
  - rewrite E in H. discriminate H.
Defined.

(** X2: in what [nextTurn] makes of a response text, a segment of the
    moderator type always has the speaker 主持人, and a segment of the
    debater type has for speaker the trimmed label of some [SPEAKER:] line of
    the text; so a text without such a line gives moderator segments only. *)
Theorem X2_type_and_speaker_go_together (text : jsstring) (seg : TurnSegment) :
  In seg (segment_text text) ->
  (type seg = moderator -> speaker seg = MODERATOR_NAME)
  /\ (type seg = debater ->
      exists line g, In line (split_lines text) /\ begins_with_tag SPEAKER_TAG line
                     /\ spkMatch line = Some g /\ speaker seg = trim g)
  /\ ((forall line, In line (split_lines text) -> ~ begins_with_tag SPEAKER_TAG line) ->
      type seg = moderator /\ speaker seg = MODERATOR_NAME).
Proof.
  intros Hin.
  assert ((type seg = moderator -> speaker seg = MODERATOR_NAME)
          /\ (type seg = debater ->
              exists line g, In line (split_lines text)
                             /\ spkMatch line = Some g /\ speaker seg = trim g)) as [Hm Hd].
  { unfold segment_text in Hin. cbv zeta in Hin.
    pose proof (well_formed_run text) as W.
    destruct (segments (seg_run text)) as [|s0 l] eqn:E.
    - destruct Hin as [<- | []]. split; [reflexivity | discriminate].
    - rewrite Forall_forall in W. destruct (W seg Hin) as [_ [_ [H3 H4]]]. now split. }
  assert (type seg = debater ->
          exists line g, In line (split_lines text) /\ begins_with_tag SPEAKER_TAG line
                         /\ spkMatch line = Some g /\ speaker seg = trim g) as Hd'.
  { intros T. destruct (Hd T) as [line [g [Hl [Hs Hg]]]].
    exists line, g. repeat split; try assumption.
    apply match_tag_spec. unfold spkMatch in Hs. congruence. }
  split; [exact Hm|]. split; [exact Hd'|].
  intros Hno. destruct (type seg) eqn:T.
  - split; [reflexivity | now apply Hm].
  - exfalso. destruct (Hd' eq_refl) as [line [g [Hl [Hb _]]]]. exact (Hno line Hl Hb).
Qed.

Lemma X2_type_and_speaker_go_together_witness :
  let text := utf16 "各位好。" ++ LF :: utf16 "moderator: 有请正方。" in
  let seg := mkTurnSegment MODERATOR_NAME (utf16 "有请正方。") moderator in
  In seg (segment_text text)
  /\ type seg = moderator /\ speaker seg = MODERATOR_NAME.
Proof.
  intros text seg.
  assert (In seg (segment_text text)) as Hin by (vm_compute; right; left; reflexivity).
  split; [exact Hin|].
  apply (@X2_type_and_speaker_go_together text seg Hin).
  intros line [<- | [<- | []]] H; apply match_tag_spec in H; apply H; reflexivity.
Defined.

Lemma flush_length (st : SegState) :
  List.length (segments (flush st)) =
    List.length (segments st) + match currentContent st with [] => 0 | _ :: _ => 1 end.
Proof.
  unfold flush. destruct (currentContent st); simpl; [lia|].
  rewrite length_app. simpl. lia.
Qed.

Lemma step_flush_length (st : SegState) (line : jsstring) :
  List.length (segments (flush (seg_step st line)))
    <= S (List.length (segments (flush st))).
Proof.
  rewrite (flush_length (seg_step st line)). unfold seg_step.
  destruct (modMatch line) as [g|].
  - simpl. rewrite currentContent_flush. simpl. destruct (truthy (trim g)); simpl; lia.
  - destruct (spkMatch line) as [g|]; simpl.
    + rewrite currentContent_flush. lia.
    + rewrite flush_length. destruct (currentContent st); simpl; lia.
Qed.

Lemma fold_flush_length (lines : list jsstring) (st : SegState) :
  List.length (segments (flush (fold_left seg_step lines st)))
    <= List.length (segments (flush st)) + List.length lines.
Proof.
  revert st. induction lines as [|line lines IH]; intros st; simpl; [lia|].
  pose proof (IH (seg_step st line)). pose proof (step_flush_length st line). lia.
Qed.

Lemma step_length_tags (st : SegState) (line : jsstring) :
  List.length (segments (seg_step st line))
    <= List.length (segments st) + (if is_tag line then 1 else 0).
Proof.
  unfold seg_step, is_tag.
  destruct (modMatch line) as [g|]; [simpl; rewrite flush_length; destruct (currentContent st); lia|].
  destruct (spkMatch line) as [g|]; simpl; [|lia].
  rewrite flush_length. destruct (currentContent st); lia.
Qed.

Lemma fold_length_tags (lines : list jsstring) (st : SegState) :
  List.length (segments (fold_left seg_step lines st))
    <= List.length (segments st) + List.length (filter is_tag lines).
Proof.
  revert st. induction lines as [|line lines IH]; intros st; simpl; [lia|].
  pose proof (IH (seg_step st line)). pose proof (step_length_tags st line).
  destruct (is_tag line); simpl; lia.
Qed.

(** X3: [nextTurn] makes at least one segment of a response text, at most
    one for each line of the text, and at most one more than the text has
    tag lines. *)
Theorem X3_number_of_segments (text : jsstring) :
  1 <= List.length (segment_text text)
  /\ List.length (segment_text text) <= List.length (split_lines text)
  /\ List.length (segment_text text) <= S (List.length (tag_lines text)).
Proof.
  assert (1 <= List.length (split_lines text)) as Hl.
  { pose proof (split_lines_not_nil text). destruct (split_lines text); simpl; [congruence | lia]. }
  pose proof (fold_flush_length (split_lines text) seg_init) as A.
  pose proof (fold_length_tags (split_lines text) seg_init) as B.
  pose proof (flush_length (fold_left seg_step (split_lines text) seg_init)) as F.
  unfold segment_text, tag_lines. cbv zeta. fold (seg_run text) in A, F.
  simpl in A, B.
  destruct (segments (seg_run text)) as [|s0 l] eqn:E; simpl in *.
  - lia.
  - destruct (currentContent (fold_left seg_step (split_lines text) seg_init)); lia.
Qed.

Lemma split_lines_app (a b : jsstring) :
  split_lines (a ++ LF :: b) = split_lines a ++ split_lines b.
Proof.
  induction a as [|c a IH]; [reflexivity|].
  simpl. destruct (c =? LF)%N; rewrite IH; [reflexivity|].
  pose proof (split_lines_not_nil a). destruct (split_lines a); [congruence | reflexivity].
Qed.

Lemma split_lines_one_line (x : jsstring) : one_line x -> split_lines x = [x].
Proof.
  induction 1 as [|c x Hc _ IH]; [reflexivity|].
  simpl. apply N.eqb_neq in Hc. now rewrite Hc, IH.
Qed.

Lemma flush_shift (pre : list TurnSegment) (st : SegState) :
  flush (shift pre st) = shift pre (flush st).
Proof.
  destruct st as [segs sp ty c]. unfold flush, shift. simpl.
  destruct c; simpl; [reflexivity | now rewrite app_assoc].
Qed.

Lemma seg_step_shift (pre : list TurnSegment) (st : SegState) (line : jsstring) :
  seg_step (shift pre st) line = shift pre (seg_step st line).
Proof.
  unfold seg_step. rewrite flush_shift.
  destruct (modMatch line); [reflexivity|]. destruct (spkMatch line); reflexivity.
Qed.

Lemma fold_shift (lines : list jsstring) (pre : list TurnSegment) (st : SegState) :
  fold_left seg_step lines (shift pre st) = shift pre (fold_left seg_step lines st).
Proof.
  revert st. induction lines as [|line lines IH]; intros st; simpl; [reflexivity|].
  now rewrite seg_step_shift, IH.
Qed.

Lemma seg_step_tag_restarts (st : SegState) (line : jsstring) :
  is_tag_line line ->
  seg_step st line = shift (segments (flush st)) (seg_step seg_init line).
Proof.
  intros H.
  assert (modMatch line <> None \/ spkMatch line <> None) as H'
    by (destruct H as [H|H]; apply match_tag_spec in H; [now left | now right]).
  unfold seg_step, shift.
  destruct (modMatch line) as [g|].
  - simpl. rewrite currentContent_flush, app_nil_r. reflexivity.
  - destruct (spkMatch line) as [g|]; [|destruct H'; congruence].
    simpl. rewrite currentContent_flush, app_nil_r. reflexivity.
Qed.

(** X4: the segmenter starts afresh at a tag line.  When the part of a
    text after some line feed begins with a tag line, the segments of the
    text are those of the part before followed by those of the part after,
    and the same holds of what [nextTurn] returns when neither part is left
    to the fallback. *)
Theorem X4_segments_compose_at_tag_lines (a b : jsstring) :
  is_tag_line (hd [] (split_lines b)) ->
  segments (seg_run (a ++ LF :: b)) = segments (seg_run a) ++ segments (seg_run b)
  /\ (segments (seg_run a) <> [] -> segments (seg_run b) <> [] ->
      segment_text (a ++ LF :: b) = segment_text a ++ segment_text b).
Proof.
  intros Ht.
  assert (segments (seg_run (a ++ LF :: b))
          = segments (seg_run a) ++ segments (seg_run b)) as E.
  { unfold seg_run. rewrite split_lines_app, fold_left_app.
    pose proof (split_lines_not_nil b) as Hn.
    destruct (split_lines b) as [|l ls]; [congruence|].
    simpl in Ht. simpl fold_left.
    rewrite (@seg_step_tag_restarts (fold_left seg_step (split_lines a) seg_init) l Ht).
    rewrite fold_shift, flush_shift. reflexivity. }
  split; [exact E|].
  intros Ha Hb. unfold segment_text. cbv zeta. rewrite E.
  destruct (segments (seg_run a)) as [|x xs]; [now elim Ha|].
  destruct (segments (seg_run b)) as [|y ys]; [now elim Hb|]. reflexivity.
Qed.

Lemma X4_segments_compose_at_tag_lines_witness :
  segment_text ((utf16 "MODERATOR: 有请正方一辩。" ++ LF :: utf16 "SPEAKER: 林晓宇"
                 ++ LF :: utf16 "谢谢主席。")
                ++ LF :: (utf16 "SPEAKER: 王芳" ++ LF :: utf16 "我不同意。"))
  = segment_text (utf16 "MODERATOR: 有请正方一辩。" ++ LF :: utf16 "SPEAKER: 林晓宇"
                  ++ LF :: utf16 "谢谢主席。")
    ++ segment_text (utf16 "SPEAKER: 王芳" ++ LF :: utf16 "我不同意。").
Proof.
  apply X4_segments_compose_at_tag_lines.
  - right. exists (utf16 "SPEAKER:"), (utf16 " 王芳"). split; reflexivity.
  - vm_compute. discriminate.
  - vm_compute. discriminate.
Defined.

Lemma fold_plain_flush (lines : list jsstring) (st : SegState) :
  Forall (fun line => modMatch line = None /\ spkMatch line = None) lines ->
  lines <> [] ->
  segments (flush (fold_left seg_step lines st)) =
    segments st ++
      [mkTurnSegment (currentSpeaker st) (trim (join_lines (currentContent st ++ lines)))
                     (currentType st)].
Proof.
  intros Hp Hn. rewrite (fold_plain st Hp). rewrite flush_lines; [reflexivity|].
  cbn [currentContent]. intros E. apply app_eq_nil in E. now destruct E.
Qed.

(** X5: a tag line followed by lines without tag is one segment.  After a
    [SPEAKER:] line the speaker is what the line has after the tag and the
    content is the trimmed text of the lines that follow; after a
    [MODERATOR:] line the inline text, if any, is the first line of the
    content. *)
Theorem X5_one_tag_line_and_its_text (pre rest body : jsstring) :
  one_line (pre ++ rest) ->
  (forall line, In line (split_lines body) -> ~ is_tag_line line) ->
  (same_ignoring_case pre SPEAKER_TAG ->
   segment_text ((pre ++ rest) ++ LF :: body)
   = [mkTurnSegment (inline_text rest) (trim body) debater])
  /\ (same_ignoring_case pre MODERATOR_TAG ->
      segment_text ((pre ++ rest) ++ LF :: body)
      = [mkTurnSegment MODERATOR_NAME
           (trim (match inline_text rest with
                  | [] => body
                  | _ :: _ => inline_text rest ++ LF :: body
                  end)) moderator]).
Proof.
  intros H1 Hb.
  assert (Forall (fun line => modMatch line = None /\ spkMatch line = None)
                 (split_lines body)) as Hplain.
  { apply Forall_forall. intros line Hin. specialize (Hb line Hin).
    split; apply not_tag_no_match; intros H; apply Hb; [now left | now right]. }
  pose proof (split_lines_not_nil body) as Hne.
  assert (segments (seg_run ((pre ++ rest) ++ LF :: body))
          = segments (flush (fold_left seg_step (split_lines body)
                                       (seg_step seg_init (pre ++ rest))))) as Hrun.
  { unfold seg_run. now rewrite split_lines_app, (split_lines_one_line H1). }
  split; intros Hpre.
  - assert (seg_step seg_init (pre ++ rest)
            = mkSegState [] (inline_text rest) debater []) as Hst.
    { assert (spkMatch (pre ++ rest)
              = Some (take_while (fun c => negb (is_line_terminator c))
                                 (drop_while is_space rest))) as Hs
        by (apply match_tag_group, Hpre).
      assert (modMatch (pre ++ rest) = None) as Hm by (apply tags_exclusive; congruence).
      unfold seg_step. rewrite Hm, Hs. reflexivity. }
    unfold segment_text. cbv zeta. rewrite Hrun, Hst.
    rewrite (fold_plain_flush _ Hplain Hne).
    cbn [segments currentSpeaker currentType currentContent app].
    rewrite join_split_lines. reflexivity.
  - assert (seg_step seg_init (pre ++ rest)
            = mkSegState [] MODERATOR_NAME moderator
                (match inline_text rest with [] => [] | _ :: _ => [inline_text rest] end))
      as Hst.
    { assert (modMatch (pre ++ rest)
              = Some (take_while (fun c => negb (is_line_terminator c))
                                 (drop_while is_space rest))) as Hm
        by (apply match_tag_group, Hpre).
      unfold seg_step. rewrite Hm. fold (inline_text rest).
      destruct (inline_text rest); reflexivity. }
    unfold segment_text. cbv zeta. rewrite Hrun, Hst.
    rewrite (fold_plain_flush _ Hplain Hne).
    cbn [segments currentSpeaker currentType currentContent app].
    destruct (inline_text rest) as [|c r].
    + cbn [app]. rewrite join_split_lines. reflexivity.
    + change ([c :: r] ++ split_lines body) with ((c :: r) :: split_lines body).
      assert (join_lines ((c :: r) :: split_lines body) = (c :: r) ++ LF :: body) as ->.
      { destruct (split_lines body) as [|l ls] eqn:Es; [now elim Hne|].
        rewrite <- (join_split_lines body), Es. reflexivity. }
      reflexivity.
Qed.

Lemma X5_one_tag_line_and_its_text_witness :
  segment_text ((utf16 "speaker:" ++ utf16 " 林晓宇 ") ++ LF :: utf16 "谢谢主席。" ++ LF ::
                utf16 "我方认为……" ++ [LF])
  = [mkTurnSegment (utf16 "林晓宇") (utf16 "谢谢主席。" ++ LF :: utf16 "我方认为……") debater].
Proof.
  destruct (@X5_one_tag_line_and_its_text (utf16 "speaker:") (utf16 " 林晓宇 ")
              (utf16 "谢谢主席。" ++ LF :: utf16 "我方认为……" ++ [LF])) as [H _].
  - repeat constructor; discriminate.
  - intros line [<- | [<- | [<- | []]]] [H | H];
      apply match_tag_spec in H; apply H; reflexivity.
  - rewrite H by reflexivity. vm_compute. reflexivity.
Defined.

(* ================================================================== *)
(** ** More on the session *)
(* ================================================================== *)



Section MoreSessionFacts.

Variable JSON_parse : jsstring -> option json.
Variable encodeURIComponent : jsstring -> option jsstring.

Lemma initializeTeams_parsed (s : DebateSession) (text : jsstring) (data : json) :
  truthy text = true -> JSON_parse text = Some data ->
  initializeTeams JSON_parse encodeURIComponent s (Responded (Some text))
  = set_teams encodeURIComponent (answered s) data.
Proof. intros Ht Hp. rewrite initializeTeams_unfold. cbv zeta. now rewrite Ht, Hp. Qed.

Lemma string_field_has (m : json) (k : string) (v : jsstring) :
  string_field m (utf16 k) = Ok v -> has_string m k v.
Proof.
  unfold string_field, has_string, bind.
  destruct (get m (utf16 k)) as [[[]|]| |]; try discriminate. now intros [= ->].
Qed.

Lemma make_debater_of (sd : Side) (i : nat) (m : json) (d : Debater) :
  make_debater encodeURIComponent sd i m = Ok d -> debater_of encodeURIComponent sd d m.
Proof.
  unfold make_debater, bind.
  destruct (string_field m (utf16 "name")) as [nm| |] eqn:En; try discriminate.
  destruct (string_field m (utf16 "role")) as [rl| |] eqn:Er; try discriminate.
  destruct (string_field m (utf16 "style")) as [st| |] eqn:Es; try discriminate.
  unfold getAvatar.
  destruct (encodeURIComponent (avatar_seed nm sd)) as [seed|] eqn:Ee; try discriminate.
  intros [= <-]. unfold debater_of. simpl.
  split; [now apply string_field_has|]. split; [now apply string_field_has|].
  split; [now apply string_field_has|]. split; [reflexivity|].
  exists seed. now split.
Qed.

Lemma map_members_of (sd : Side) (ms : list json) :
  forall (i : nat) (ds : list Debater),
    map_members encodeURIComponent sd i ms = Ok ds ->
    Forall2 (debater_of encodeURIComponent sd) ds ms.
Proof.
  induction ms as [|m ms IH]; intros i ds; simpl.
  - intros [= <-]. constructor.
  - unfold bind.
    destruct (make_debater encodeURIComponent sd i m) as [d| |] eqn:Ed; try discriminate.
    destruct (map_members encodeURIComponent sd (S i) ms) as [ds'| |] eqn:Eds; try discriminate.
    intros [= <-]. constructor; [now apply make_debater_of in Ed | now apply (IH (S i))].
Qed.

Lemma build_team_name (sd : Side) (data : json) (ms : list json) (t : Team) :
  build_team encodeURIComponent sd (side_object data sd) ms = Ok t ->
  declared_team_name data sd = Ok (team_name t) /\ team_side t = sd.
Proof.
  unfold build_team, declared_team_name, bind.
  destruct (get (side_object data sd) (utf16 "name")) as [n| |]; try discriminate.
  destruct (string_or n (default_team_name sd)) as [nm| |]; try discriminate.
  destruct (map_members encodeURIComponent sd 0 ms); try discriminate.
  intros [= <-]. now split.
Qed.

Lemma push_default_not_nil (sd : Side) (ms : list json) : push_default sd ms <> [].
Proof. destruct ms; discriminate. Qed.

End MoreSessionFacts.

(** X7: the two teams are not set together.  When the proposition team
    cannot be built, no team is set; when it can and the opposition team
    cannot (a [null] among its members, say), the error reaches the caller
    with the new proposition team already on the session and the opposition
    team as it was. *)
Theorem X7_teams_are_set_one_after_the_other
    (parse : jsstring -> option json) (enc : jsstring -> option jsstring)
    (s : DebateSession) (text : jsstring) (data : json) (e : exn) :
  truthy text = true ->
  parse text = Some data ->
  data <> JNull ->
  (build_team enc proposition (side_object data proposition)
     (push_default proposition (raw_members data proposition)) = Throw e ->
   initializeTeams parse enc s (Responded (Some text)) = (answered s, Throw e))
  /\ (forall p,
        build_team enc proposition (side_object data proposition)
          (push_default proposition (raw_members data proposition)) = Ok p ->
        build_team enc opposition (side_object data opposition)
          (push_default opposition (raw_members data opposition)) = Throw e ->
        exists s',
          initializeTeams parse enc s (Responded (Some text)) = (s', Throw e)
          /\ propTeam s' = Some p /\ oppTeam s' = oppTeam s).
Proof.
  intros Ht Hp Hn. rewrite (initializeTeams_parsed parse enc s text Ht Hp).
  unfold set_teams. rewrite (team_data_not_null Hn). split.
  - intros ->. reflexivity.
  - intros p -> ->. eexists. split; [reflexivity|]. split; reflexivity.
Qed.

Lemma X7_teams_are_set_one_after_the_other_witness :
  let data :=
    JObject [(utf16 "proposition",
              JObject [(utf16 "name", JString (utf16 "甲队"));
                       (utf16 "members",
                        JArray [JObject [(utf16 "name", JString (utf16 "林晓宇"));
                                         (utf16 "role", JString (utf16 "一辩"));
                                         (utf16 "style", JString (utf16 "稳健"))]])]);
             (utf16 "opposition",
              JObject [(utf16 "name", JString (utf16 "乙队"));
                       (utf16 "members", JArray [JNull])])] in
  exists s',
    initializeTeams (parse_table [(utf16 "{...}", data)]) Builtins.encodeURIComponent
      (new_DebateSession (utf16 "AI")) (Responded (Some (utf16 "{...}")))
    = (s', Throw TypeError)
    /\ option_map (fun t => map name (members t)) (propTeam s') = Some [utf16 "林晓宇"]
    /\ oppTeam s' = None.
Proof.
  intros data.
  destruct (@X7_teams_are_set_one_after_the_other
              (parse_table [(utf16 "{...}", data)]) Builtins.encodeURIComponent
              (new_DebateSession (utf16 "AI")) (utf16 "{...}") data TypeError)
    as [_ H].
  - reflexivity.
  - reflexivity.
  - discriminate.
  - destruct (H (mkTeam proposition (utf16 "甲队")
                   [mkDebater (utf16 "prop-0") (utf16 "林晓宇") (utf16 "一辩") proposition
                      (utf16 "稳健")
                      (avatar_url (utf16 "%E6%9E%97%E6%99%93%E5%AE%87-proposition")
                                  proposition)]))
      as [s' [E [Hp Ho]]].
    + vm_compute. reflexivity.
    + vm_compute. reflexivity.
    + exists s'. split; [exact E|]. split; [rewrite Hp; reflexivity | exact Ho].
Defined.

Lemma digits_of_uint_inj (d d' : Decimal.uint) :
  digits_of_uint d = digits_of_uint d' -> d = d'.
Proof.
  revert d'. induction d; intros d'; destruct d'; simpl; intros H;
    try discriminate; try reflexivity; injection H as H; f_equal; now apply IHd.
Qed.

Lemma of_nat_inj (i j : nat) : of_nat i = of_nat j -> i = j.
Proof.
  unfold of_nat. intros H. apply digits_of_uint_inj in H.
  now apply DecimalNat.Unsigned.to_uint_inj.
Qed.

Lemma sequential_ids_NoDup (sd : Side) (n : nat) : NoDup (sequential_ids sd n).
Proof.
  unfold sequential_ids.
  assert (forall l, NoDup l -> NoDup (map (fun i => id_prefix sd ++ of_nat i) l)) as K.
  { induction 1 as [|i l Hi Hl IH]; simpl; constructor; [|exact IH].
    intros Hin. apply in_map_iff in Hin. destruct Hin as [j [Hj Hin]].
    apply app_inv_head, of_nat_inj in Hj. now subst j. }
  apply K, seq_NoDup.
Qed.

Lemma sequential_ids_head (sd : Side) (n : nat) (x : jsstring) :
  In x (sequential_ids sd n) -> hd_error x = hd_error (id_prefix sd).
Proof.
  unfold sequential_ids. intros H. apply in_map_iff in H.
  destruct H as [i [<- _]]. now destruct sd.
Qed.

(** X8: the teams [initializeTeams] returns are never empty, each member
    carries the side of its team, and the ids of the members of the two
    teams together are pairwise different, so that they can serve as keys
    of the rows of the team cards. *)
Theorem X8_teams_are_not_empty_and_ids_differ
    (parse : jsstring -> option json) (enc : jsstring -> option jsstring)
    (s s' : DebateSession) (o : SendOutcome) (p q : Team) :
  initializeTeams parse enc s o = (s', Ok (p, q)) ->
  members p <> [] /\ members q <> []
  /\ team_side p = proposition /\ team_side q = opposition
  /\ Forall (fun d => side d = proposition) (members p)
  /\ Forall (fun d => side d = opposition) (members q)
  /\ NoDup (TeamCard.keys p ++ TeamCard.keys q).
Proof.
  rewrite initializeTeams_unfold.
  destruct o as [t|m]; [|discriminate]. cbv zeta.
  destruct (truthy _); [|discriminate].
  destruct (parse _) as [data|]; [|discriminate].
  intros H. destruct (set_teams_ok_inv _ _ _ H) as [Hn [Bp [Bq _]]].
  pose proof (build_team_name enc _ data _ Bp) as [_ Sp].
  pose proof (build_team_name enc _ data _ Bq) as [_ Sq].
  apply build_team_members in Bp. apply build_team_members in Bq.
  pose proof (map_members_ids _ _ _ _ Bp) as [Lp Ip].
  pose proof (map_members_ids _ _ _ _ Bq) as [Lq Iq].
  pose proof (map_members_of _ _ _ _ Bp) as Fp.
  pose proof (map_members_of _ _ _ _ Bq) as Fq.
  assert (forall sd (ds : list Debater) ms,
             Forall2 (debater_of enc sd) ds ms -> Forall (fun d => side d = sd) ds) as K.
  { intros sd ds ms F. induction F as [|d m ds ms [_ [_ [_ [Hs _]]]] _ IH]; now constructor. }
  split.
  { intros E. rewrite E in Lp. simpl in Lp. symmetry in Lp.
    apply length_zero_iff_nil in Lp. now apply push_default_not_nil in Lp. }
  split.
  { intros E. rewrite E in Lq. simpl in Lq. symmetry in Lq.
    apply length_zero_iff_nil in Lq. now apply push_default_not_nil in Lq. }
  split; [exact Sp|]. split; [exact Sq|].
  split; [exact (K _ _ _ Fp)|]. split; [exact (K _ _ _ Fq)|].
  unfold TeamCard.keys. rewrite Ip, Iq.
  fold (sequential_ids proposition
          (List.length (push_default proposition (raw_members data proposition)))).
  fold (sequential_ids opposition
          (List.length (push_default opposition (raw_members data opposition)))).
  apply NoDup_app; try apply sequential_ids_NoDup.
  intros x Hp Hq. apply sequential_ids_head in Hp. apply sequential_ids_head in Hq.
  rewrite Hp in Hq. discriminate Hq.
Qed.

Lemma X8_teams_are_not_empty_and_ids_differ_witness :
  exists s' p q,
    initializeTeams Builtins.JSON_parse Builtins.encodeURIComponent
      (new_DebateSession (utf16 "AI")) (Responded (Some Builtins.one_sided_text))
    = (s', Ok (p, q))
    /\ NoDup (TeamCard.keys p ++ TeamCard.keys q)
    /\ TeamCard.keys p ++ TeamCard.keys q = [utf16 "prop-0"; utf16 "opp-0"; utf16 "opp-1"].
Proof.
  pose (r := initializeTeams Builtins.JSON_parse Builtins.encodeURIComponent
               (new_DebateSession (utf16 "AI")) (Responded (Some Builtins.one_sided_text))).
  pose (pq := match snd r with
              | Ok t => t
              | _ => (mkTeam proposition [] [], mkTeam opposition [] [])
              end).
  assert (r = (fst r, Ok (fst pq, snd pq))) as H by (vm_compute; reflexivity).
  exists (fst r), (fst pq), (snd pq). split; [exact H|].
  split; [|vm_compute; reflexivity].
  exact (proj2 (proj2 (proj2 (proj2 (proj2 (proj2
           (X8_teams_are_not_empty_and_ids_differ
              Builtins.JSON_parse Builtins.encodeURIComponent
              (new_DebateSession (utf16 "AI")) (Responded (Some Builtins.one_sided_text))
              H))))))).
Defined.

(** X9: the teams [initializeTeams] returns hold the parsed members in
    their order, each with its three strings as parsed, the side of its
    team and the avatar of its name and side; the list is the parsed one, or
    the default member alone when that is missing or empty; the name of the
    team is the parsed name or, when that is missing or empty, 正方 or
    反方. *)
Theorem X9_members_are_the_parsed_ones
    (parse : jsstring -> option json) (enc : jsstring -> option jsstring)
    (s s' : DebateSession) (text : jsstring) (data : json) (pq : Team * Team) :
  truthy text = true ->
  parse text = Some data ->
  initializeTeams parse enc s (Responded (Some text)) = (s', Ok pq) ->
  forall sd,
    Forall2 (debater_of enc sd) (members (team_of sd pq))
            (push_default sd (raw_members data sd))
    /\ declared_team_name data sd = Ok (team_name (team_of sd pq))
    /\ (raw_members data sd <> [] ->
        push_default sd (raw_members data sd) = raw_members data sd)
    /\ (forall n, get (side_object data sd) (utf16 "name") = Ok n ->
        json_truthy n = false -> team_name (team_of sd pq) = default_team_name sd).
Proof.
  intros Ht Hp H sd. rewrite (initializeTeams_parsed parse enc s text Ht Hp) in H.
  destruct pq as [p q].
  destruct (set_teams_ok_inv _ _ _ H) as [Hn [Bp [Bq _]]].
  assert (build_team enc sd (side_object data sd)
            (push_default sd (raw_members data sd)) = Ok (team_of sd (p, q))) as B
    by (destruct sd; assumption).
  pose proof (build_team_name enc _ data _ B) as [Hname _].
  split; [apply build_team_members in B; now apply map_members_of in B|].
  split; [exact Hname|].
  split; [intros Hr; destruct (raw_members data sd); [now elim Hr | reflexivity]|].
  intros n Hg Hf. unfold declared_team_name, bind in Hname. rewrite Hg in Hname.
  unfold string_or in Hname. rewrite Hf in Hname. now injection Hname.
Qed.

Lemma X9_members_are_the_parsed_ones_witness :
  exists s' p q,
    initializeTeams Builtins.JSON_parse Builtins.encodeURIComponent
      (new_DebateSession (utf16 "AI")) (Responded (Some Builtins.one_sided_text))
    = (s', Ok (p, q))
    /\ Forall2 (debater_of Builtins.encodeURIComponent opposition) (members q)
         (raw_members Builtins.one_sided_data opposition)
    /\ team_name q = utf16 "反方".
Proof.
  pose (r := initializeTeams Builtins.JSON_parse Builtins.encodeURIComponent
               (new_DebateSession (utf16 "AI")) (Responded (Some Builtins.one_sided_text))).
  pose (pq := match snd r with
              | Ok t => t
              | _ => (mkTeam proposition [] [], mkTeam opposition [] [])
              end).
  assert (r = (fst r, Ok pq)) as H by (vm_compute; reflexivity).
  destruct (@X9_members_are_the_parsed_ones
              Builtins.JSON_parse Builtins.encodeURIComponent
              (new_DebateSession (utf16 "AI")) (fst r) Builtins.one_sided_text
              Builtins.one_sided_data pq) with (sd := opposition)
    as [F [_ [Hpush Hname]]].
  - reflexivity.
  - reflexivity.
  - exact H.
  - exists (fst r), (fst pq), (snd pq). split; [vm_compute; reflexivity|]. split.
    + rewrite Hpush in F by discriminate. exact F.
    + apply (Hname (Some (JString []))); reflexivity.
Defined.

Lemma side_object_without (data : json) (sd : Side) :
  without_sides data -> side_object data sd = JObject [].
Proof.
  intros [Hn [Hp Ho]]. unfold side_object, side_key.
  assert (forall v, get data (side_string sd) = Ok v -> json_truthy v = false) as H
    by (destruct sd; assumption).
  destruct (get data (side_string sd)) as [v| |] eqn:E;
    [|destruct data; try discriminate; now elim Hn | destruct data; discriminate].
  specialize (H v eq_refl). unfold or_empty_object.
  destruct v as [x|]; [now rewrite H | reflexivity].
Qed.

(** X10: a response text that [JSON.parse] accepts is never rejected for
    its shape.  The text of [null] makes [initializeTeams] throw a
    [TypeError] with no team set; every other value that has neither side (a
    number, a string, an array, an object without the two keys or with
    falsy values for them) gives the two default teams, named 正方 and 反方,
    of one default member each. *)
Theorem X10_any_value_without_sides_gives_the_defaults
    (parse : jsstring -> option json) (enc : jsstring -> option jsstring)
    (s : DebateSession) (text : jsstring) (data : json) :
  truthy text = true ->
  parse text = Some data ->
  (data = JNull ->
   initializeTeams parse enc s (Responded (Some text)) = (answered s, Throw TypeError))
  /\ (forall e1 e2,
        without_sides data ->
        enc (avatar_seed (default_member_name proposition) proposition) = Some e1 ->
        enc (avatar_seed (default_member_name opposition) opposition) = Some e2 ->
        exists s',
          initializeTeams parse enc s (Responded (Some text))
          = (s', Ok (mkTeam proposition (utf16 "正方") [default_debater proposition e1],
                     mkTeam opposition (utf16 "反方") [default_debater opposition e2]))
          /\ propTeam s' = Some (mkTeam proposition (utf16 "正方")
                                   [default_debater proposition e1])
          /\ oppTeam s' = Some (mkTeam opposition (utf16 "反方")
                                  [default_debater opposition e2])).
Proof.
  intros Ht Hp. rewrite (initializeTeams_parsed parse enc s text Ht Hp). split.
  - intros ->. reflexivity.
  - intros e1 e2 Hw H1 H2.
    assert (forall sd e,
               enc (avatar_seed (default_member_name sd) sd) = Some e ->
               build_team enc sd (side_object data sd)
                 (push_default sd (raw_members data sd))
               = Ok (mkTeam sd (default_team_name sd) [default_debater sd e])) as B.
    { intros sd e He.
      assert (raw_members data sd = []) as ->
        by (unfold raw_members; now rewrite (side_object_without sd Hw)).
      apply build_team_default; [exact He|].
      unfold declared_team_name. now rewrite (side_object_without sd Hw). }
    exists (with_oppTeam (with_propTeam (answered s)
                            (mkTeam proposition (default_team_name proposition)
                               [default_debater proposition e1]))
              (mkTeam opposition (default_team_name opposition)
                 [default_debater opposition e2])).
    split; [|split; reflexivity].
    apply (set_teams_ok enc (answered s) (proj1 Hw) (B proposition e1 H1)
             (B opposition e2 H2)).
Qed.

Lemma X10_any_value_without_sides_gives_the_defaults_witness :
  exists s',
    initializeTeams (parse_table [(utf16 "[1, 2]", JArray [JNumber 1; JNumber 2])])
      Builtins.encodeURIComponent (new_DebateSession (utf16 "AI"))
      (Responded (Some (utf16 "[1, 2]")))
    = (s', Ok (mkTeam proposition (utf16 "正方")
                 [default_debater proposition
                    (utf16 "%E6%AD%A3%E6%96%B9%E8%BE%A9%E6%89%8B%201-proposition")],
               mkTeam opposition (utf16 "反方")
                 [default_debater opposition
                    (utf16 "%E5%8F%8D%E6%96%B9%E8%BE%A9%E6%89%8B%201-opposition")])).
Proof.
  destruct (@X10_any_value_without_sides_gives_the_defaults
              (parse_table [(utf16 "[1, 2]", JArray [JNumber 1; JNumber 2])])
              Builtins.encodeURIComponent (new_DebateSession (utf16 "AI"))
              (utf16 "[1, 2]") (JArray [JNumber 1; JNumber 2]))
    as [_ H].
  - reflexivity.
  - reflexivity.
  - destruct (H (utf16 "%E6%AD%A3%E6%96%B9%E8%BE%A9%E6%89%8B%201-proposition")
                (utf16 "%E5%8F%8D%E6%96%B9%E8%BE%A9%E6%89%8B%201-opposition"))
      as [s' [E _]].
    + split; [discriminate|]. split; intros v [= <-]; reflexivity.
    + vm_compute. reflexivity.
    + vm_compute. reflexivity.
    + exists s'. exact E.
Defined.

(* ================================================================== *)
(** ** More on the player *)
(* ================================================================== *)

Section MorePlayerFacts.

Variable toLowerCase : jsstring -> jsstring.
Variable stamp : nat -> App.Stamp.

Lemma play_segments_messages (s : DebateSession) (segs : list TurnSegment) :
  forall st,
    exists msgs,
      App.messages (App.play_segments toLowerCase stamp s st segs)
      = App.messages st ++ msgs
      /\ map App.msg_content msgs = map content segs
      /\ map App.speakerName msgs
         = map (fun seg => Some (App.attr_speakerName (App.attribute toLowerCase s seg))) segs
      /\ map App.speakerSide msgs
         = map (fun seg => Some (App.attr_side (App.attribute toLowerCase s seg))) segs
      /\ Forall (fun m => App.msg_role m = App.model) msgs
      /\ App.isLoadingTurn (App.play_segments toLowerCase stamp s st segs)
         = App.isLoadingTurn st
      /\ App.error (App.play_segments toLowerCase stamp s st segs) = App.error st.
Proof.
  induction segs as [|seg segs IH]; intros st.
  - exists []. simpl. rewrite app_nil_r. repeat split. constructor.
  - unfold App.play_segments in *. simpl fold_left.
    destruct (IH (App.play_segment toLowerCase stamp s st seg))
      as [msgs [Hm [Hc [Hn [Hs [Hr [Hl He]]]]]]].
    pose proof (play_segment_shows toLowerCase stamp s st seg) as P. cbv zeta in P.
    eexists (_ :: msgs). rewrite Hm, Hl, He, P. cbn [App.messages App.isLoadingTurn App.error].
    rewrite <- app_assoc. simpl.
    split; [reflexivity|]. rewrite Hc, Hn, Hs.
    split; [reflexivity|]. split; [reflexivity|]. split; [reflexivity|].
    split; [constructor; [reflexivity | exact Hr]|]. split; reflexivity.
Qed.

Lemma attribute_own_name (s : DebateSession) (seg : TurnSegment) (m : Debater) :
  In m (roster (propTeam s) ++ roster (oppTeam s)) ->
  Qualifies toLowerCase (speaker seg) m ->
  exists sd m', App.attribute toLowerCase s seg = attributed_to sd m'
                /\ Qualifies toLowerCase (speaker seg) m'
                /\ In m' (roster (propTeam s) ++ roster (oppTeam s)).
Proof.
  intros Hin Hq.
  destruct (attribute_cases toLowerCase s seg)
    as [[m' [Hf Ha]] | [[m' [Hn [Hf Ha]]] | [Hn [Hn' _]]]].
  - exists proposition, m'. apply first_such_holds in Hf. destruct Hf as [Hi Hq'].
    split; [exact Ha|]. split; [exact Hq' | apply in_or_app; now left].
  - exists opposition, m'. apply first_such_holds in Hf. destruct Hf as [Hi Hq'].
    split; [exact Ha|]. split; [exact Hq' | apply in_or_app; now right].
  - exfalso. apply in_app_or in Hin. rewrite Forall_forall in Hn, Hn'.
    destruct Hin as [Hin | Hin]; [exact (Hn m Hin Hq) | exact (Hn' m Hin Hq)].
Qed.

End MorePlayerFacts.

Lemma turn_segments_not_nil (o : SendOutcome) : turn_segments o <> [].
Proof.
  destruct o as [t|m]; [|discriminate]. simpl. unfold segment_text. cbv zeta.
  destruct (segments (seg_run _)); discriminate.
Qed.

(** X11: playing the segments of a turn adds one message for each segment,
    in the order of the segments and after the messages that were there,
    with the content of the segment, the role [model] and the side and name
    of its attribution; the flag and the error are left alone. *)
Theorem X11_one_message_for_each_segment
    (toLowerCase : jsstring -> jsstring) (stamp : nat -> App.Stamp)
    (s : DebateSession) (st : App.State) (segs : list TurnSegment) :
  exists msgs,
    App.messages (App.play_segments toLowerCase stamp s st segs) = App.messages st ++ msgs
    /\ map App.msg_content msgs = map content segs
    /\ map App.speakerName msgs
       = map (fun seg => Some (App.attr_speakerName (App.attribute toLowerCase s seg))) segs
    /\ map App.speakerSide msgs
       = map (fun seg => Some (App.attr_side (App.attribute toLowerCase s seg))) segs
    /\ Forall (fun m => App.msg_role m = App.model) msgs
    /\ App.isLoadingTurn (App.play_segments toLowerCase stamp s st segs)
       = App.isLoadingTurn st
    /\ App.error (App.play_segments toLowerCase stamp s st segs) = App.error st.
Proof. apply play_segments_messages. Qed.





(** X14: a member whose name is empty, or white space only, takes every
    segment that no earlier member takes: with such a member in a roster, no
    segment at all is shown as the moderator's, the lines of the moderator
    and the error message of a failed turn included. *)
Theorem X14_an_empty_name_takes_every_segment
    (toLowerCase : jsstring -> jsstring) (s : DebateSession) (m : Debater)
    (seg : TurnSegment) :
  In m (roster (propTeam s) ++ roster (oppTeam s)) ->
  App.normalize toLowerCase (name m) = [] ->
  exists sd m',
    App.attribute toLowerCase s seg = attributed_to sd m'
    /\ App.attr_side (App.attribute toLowerCase s seg) <> App.moderator_side.
Proof.
  intros Hin Hn.
  assert (Qualifies toLowerCase (speaker seg) m) as Hq.
  { left. rewrite Hn. now exists [], (App.normalize toLowerCase (speaker seg)). }
  destruct (@attribute_own_name toLowerCase s seg m Hin Hq) as [sd [m' [Ha _]]].
  exists sd, m'. split; [exact Ha|]. rewrite Ha. discriminate.
Qed.

Lemma X14_an_empty_name_takes_every_segment_witness :
  let s := Examples.session_with [utf16 "林晓宇"] [utf16 "王芳"; utf16 " "] in
  exists sd m',
    App.attribute Builtins.toLowerCase s
      (mkTurnSegment SYSTEM_NAME (ERROR_PREFIX ++ utf16 "fetch failed") moderator)
    = attributed_to sd m'.
Proof.
  intros s.
  destruct (@X14_an_empty_name_takes_every_segment Builtins.toLowerCase s
              (Examples.debater_at opposition 1 (utf16 " "))
              (mkTurnSegment SYSTEM_NAME (ERROR_PREFIX ++ utf16 "fetch failed") moderator))
    as [sd [m' [Ha _]]].
  - simpl. right. right. left. reflexivity.
  - reflexivity.
  - exists sd, m'. exact Ha.
Defined.

(** X15: what [ChatMessage] shows for the message of a played segment.  A
    segment attributed to nobody gets the centred bubble under the heading
    of the moderator, without avatar and without its label, whatever that
    label is; a segment attributed to a member gets the stored name of the
    member with the badge 正方 or 反方 of the side it was found on, the
    avatar of the member (the default one if that is empty), on the left
    for the proposition and on the right for the opposition. *)
Theorem X15_what_a_played_segment_looks_like
    (toLowerCase : jsstring -> jsstring) (stamp : nat -> App.Stamp)
    (s : DebateSession) (st : App.State) (seg : TurnSegment) :
  exists msg,
    App.messages (App.play_segment toLowerCase stamp s st seg) = App.messages st ++ [msg]
    /\ ChatMessage.body (ChatMessage.render msg) = content seg
    /\ (App.attribute toLowerCase s seg = unattributed (speaker seg) ->
        ChatMessage.render msg = moderator_view (content seg))
    /\ (forall sd m,
          App.attribute toLowerCase s seg = attributed_to sd m ->
          ChatMessage.header (ChatMessage.render msg)
          = ChatMessage.name_and_badge (Some (name m)) (default_team_name sd)
          /\ ChatMessage.avatar (ChatMessage.render msg)
             = Some (if truthy (avatarUrl m) then avatarUrl m
                     else ChatMessage.moderatorAvatar)
          /\ ChatMessage.alignClass (ChatMessage.render msg)
             = match sd with
               | proposition => utf16 "flex-row"
               | opposition => utf16 "flex-row-reverse"
               end).
Proof.
  rewrite play_segment_shows. cbv zeta. cbn [App.messages].
  eexists. split; [reflexivity|]. split; [|split].
  - unfold ChatMessage.render, ChatMessage.side_is. cbn [App.speakerSide App.msg_role].
    destruct (App.attr_side (App.attribute toLowerCase s seg)) as [[|]|]; reflexivity.
  - intros ->. reflexivity.
  - intros sd m ->. destruct sd; split; try split; reflexivity.
Qed.

Lemma X15_what_a_played_segment_looks_like_witness :
  exists msg,
    App.messages (App.play_segment Builtins.toLowerCase Builtins.stamp Examples.two_debaters
                    (App.mkState [] None None true)
                    (mkTurnSegment (utf16 "张三") (utf16 "大家好。") debater))
    = [msg]
    /\ ChatMessage.render msg = moderator_view (utf16 "大家好。").
Proof.
  destruct (X15_what_a_played_segment_looks_like Builtins.toLowerCase Builtins.stamp
              Examples.two_debaters (App.mkState [] None None true)
              (mkTurnSegment (utf16 "张三") (utf16 "大家好。") debater))
    as [msg [Hm [_ [Hu _]]]].
  exists msg. split; [exact Hm|]. apply Hu. vm_compute. reflexivity.
Defined.

Lemma jsstring_eqb_eq (a b : jsstring) : JS.eqb a b = true <-> a = b.
Proof.
  unfold JS.eqb. destruct (list_eq_dec N.eq_dec a b); split; congruence.
Qed.

(** X16: who the team cards show as speaking.  While the segment of a
    member is the current one, a card shows as speaking exactly those of
    its members that have the very name of that member (so also a namesake
    on the other team), and nobody if that name is empty; for a segment
    attributed to nobody, and after the end of the turn, no card shows
    anybody as speaking. *)
Theorem X16_who_is_shown_as_speaking
    (toLowerCase : jsstring -> jsstring) (stamp : nat -> App.Stamp)
    (sc : Screen.State) (s : DebateSession) (seg : TurnSegment) (t : Team) :
  let playing := with_turn sc (App.play_segment toLowerCase stamp s (Screen.turn sc) seg) in
  (App.attribute toLowerCase s seg = unattributed (speaker seg) ->
   TeamCard.speaking t (Screen.currentSpeakerName playing) = [])
  /\ (forall sd m,
        App.attribute toLowerCase s seg = attributed_to sd m ->
        (name m = [] -> TeamCard.speaking t (Screen.currentSpeakerName playing) = [])
        /\ (name m <> [] ->
            forall d, In d (TeamCard.speaking t (Screen.currentSpeakerName playing))
                      <-> In d (members t) /\ name d = name m))
  /\ (forall o,
        TeamCard.speaking t
          (Screen.currentSpeakerName
             (with_turn sc (fst (App.triggerNextTurn_resume toLowerCase stamp
                                   (Screen.turn sc) s o))))
        = []).
Proof.
  intros playing.
  assert (forall l, filter (TeamCard.isSpeaking None) l = []) as Hnone
    by (induction l; [reflexivity | exact IHl]).
  assert (Screen.currentSpeakerName playing
          = match App.attr_current (App.attribute toLowerCase s seg) with
            | Some n => if truthy n then Some n else None
            | None => None
            end) as Hcur by reflexivity.
  split; [|split].
  - intros Ha. rewrite Hcur, Ha. apply Hnone.
  - intros sd m Ha. rewrite Hcur, Ha. cbn [attributed_to App.attr_current]. split.
    + intros ->. apply Hnone.
    + intros Hne d. destruct (name m) as [|c r] eqn:E; [now elim Hne|].
      cbn [truthy]. unfold TeamCard.speaking. rewrite filter_In.
      unfold TeamCard.isSpeaking. rewrite jsstring_eqb_eq. split; intros [H1 H2]; split; congruence.
  - intros o. unfold TeamCard.speaking. apply Hnone.
Qed.

Lemma X16_who_is_shown_as_speaking_witness :
  let sc := Screen.mkState ongoing (utf16 "AI") None None (Some Examples.two_debaters)
              (App.mkState [] None None true) in
  let playing :=
    with_turn sc (App.play_segment Builtins.toLowerCase Builtins.stamp
                    Examples.two_debaters (Screen.turn sc)
                    (mkTurnSegment (utf16 "林晓宇 ") (utf16 "谢谢主席。") debater)) in
  In (Examples.debater_at opposition 0 (utf16 "林晓宇"))
     (TeamCard.speaking
        (mkTeam opposition (utf16 "反方")
           [Examples.debater_at opposition 0 (utf16 "林晓宇")])
        (Screen.currentSpeakerName playing)).
Proof.
  intros sc playing.
  destruct (X16_who_is_shown_as_speaking Builtins.toLowerCase Builtins.stamp sc
              Examples.two_debaters
              (mkTurnSegment (utf16 "林晓宇 ") (utf16 "谢谢主席。") debater)
              (mkTeam opposition (utf16 "反方")
                 [Examples.debater_at opposition 0 (utf16 "林晓宇")]))
    as [_ [H _]].
  destruct (H proposition (Examples.debater_at proposition 0 (utf16 "林晓宇")))
    as [_ H'].
  - vm_compute. reflexivity.
  - fold playing in H'. apply (H' ltac:(discriminate)).
    split; [left; reflexivity | unfold Examples.debater_at; cbn [name]; reflexivity].
Defined.

(* ================================================================== *)
(** ** The setup and the handlers *)
(* ================================================================== *)

Lemma drop_while_nil (p : char16 -> bool) (s : jsstring) :
  drop_while p s = [] -> forallb p s = true.
Proof.
  induction s as [|c s IH]; simpl; [reflexivity|].
  destruct (p c); [exact IH | discriminate].
Qed.

Lemma trim_nil (x : jsstring) : trim x = [] -> all_space x = true.
Proof.
  unfold trim. intros H. apply (f_equal (@rev char16)) in H.
  rewrite rev_involutive in H. simpl in H.
  destruct (drop_while is_space x) as [|c y] eqn:E; [now apply drop_while_nil|].
  exfalso.
  assert (is_space c = false) as Hc
    by (apply (@hd_drop_while is_space x); now rewrite E).
  simpl in H. rewrite (@drop_while_app_stop _ (rev y) [] c Hc) in H.
  destruct (drop_while is_space (rev y)); discriminate.
Qed.

Section HandlerFacts.

Variable JSON_parse : jsstring -> option json.
Variable encodeURIComponent : jsstring -> option jsstring.
Variable stamp : nat -> App.Stamp.

Lemma handleStartSetup_unfold (sc : Screen.State) (o : SendOutcome) :
  truthy (trim (Screen.ui_topic sc)) = true ->
  Screen.handleStartSetup JSON_parse encodeURIComponent stamp sc o =
    match initializeTeams JSON_parse encodeURIComponent
            (new_DebateSession (Screen.ui_topic sc)) o with
    | (s', Ok (p, q)) =>
        let '(st, s'') :=
          Screen.triggerNextTurn_seen stamp (App.isLoadingTurn (Screen.turn sc))
            (App.mkState [] (App.currentSpeaker (Screen.turn sc)) None false) s' None in
        Some (Screen.mkState ongoing (Screen.ui_topic sc) (Some p) (Some q) (Some s'') st)
    | (s', Throw _) =>
        Some (Screen.mkState idle (Screen.ui_topic sc) (Screen.ui_propTeam sc)
                (Screen.ui_oppTeam sc) (Some s')
                (App.mkState [] (App.currentSpeaker (Screen.turn sc))
                   (Some Screen.SETUP_FAILED) false))
    | (_, Untyped) => None
    end.
Proof.
  intros Ht. unfold Screen.handleStartSetup, Screen.handleStartSetup_enter. rewrite Ht.
  unfold Screen.handleStartSetup_resume. cbn [Screen.sessionRef].
  unfold initializeTeams.
  destruct (initializeTeams_resume JSON_parse encodeURIComponent _ o) as [s' [[p q]| |]];
    reflexivity.
Qed.

End HandlerFacts.

(** X17: the start button does something exactly when the topic has a
    character that is not white space.  With a blank topic nothing at all
    changes: no session is made, nothing is sent and the messages stay. *)
Theorem X17_blank_topic_starts_nothing
    (parse : jsstring -> option json) (enc : jsstring -> option jsstring)
    (stamp : nat -> App.Stamp) (sc : Screen.State) (o : SendOutcome) :
  (Screen.handleStartSetup_enter sc = None <-> all_space (Screen.ui_topic sc) = true)
  /\ (all_space (Screen.ui_topic sc) = true ->
      Screen.handleStartSetup parse enc stamp sc o = Some sc).
Proof.
  assert (Screen.handleStartSetup_enter sc = None <-> all_space (Screen.ui_topic sc) = true)
    as H.
  { unfold Screen.handleStartSetup_enter. split.
    - destruct (trim (Screen.ui_topic sc)) eqn:E; [intros _; now apply trim_nil | discriminate].
    - intros Ha. now rewrite (trim_all_space _ Ha). }
  split; [exact H|].
  intros Ha. apply H in Ha. unfold Screen.handleStartSetup. now rewrite Ha.
Qed.

Lemma X17_blank_topic_starts_nothing_witness :
  let sc := Screen.mkState idle (utf16 "   ") None None None (App.mkState [] None None false) in
  Screen.handleStartSetup Builtins.JSON_parse Builtins.encodeURIComponent Builtins.stamp sc
    (Responded (Some Builtins.one_sided_text)) = Some sc.
Proof.
  intros sc.
  apply (X17_blank_topic_starts_nothing Builtins.JSON_parse Builtins.encodeURIComponent
           Builtins.stamp sc (Responded (Some Builtins.one_sided_text))).
  reflexivity.
Defined.

(** X18: a setup that fails.  When the team request fails, or its response
    has no text, the empty text or a text that is not JSON, the component
    goes back to [idle] with the one fixed error text (the message of the
    error is not shown), the messages emptied, the flag down and the teams
    on display untouched; the session it keeps has a chat and no teams. *)
Theorem X18_failed_setup
    (parse : jsstring -> option json) (enc : jsstring -> option jsstring)
    (stamp : nat -> App.Stamp) (sc : Screen.State) (o : SendOutcome) :
  truthy (trim (Screen.ui_topic sc)) = true ->
  (unusable parse o \/ exists m, o = Failed m) ->
  exists s',
    Screen.handleStartSetup parse enc stamp sc o
    = Some (Screen.mkState idle (Screen.ui_topic sc) (Screen.ui_propTeam sc)
              (Screen.ui_oppTeam sc) (Some s')
              (App.mkState [] (App.currentSpeaker (Screen.turn sc))
                 (Some (utf16 "无法初始化辩论，请检查网络或重试。")) false))
    /\ propTeam s' = None /\ oppTeam s' = None
    /\ chat s' = Some (mkChat [TeamRequest (Screen.ui_topic sc)] 0).
Proof.
  intros Ht Ho. rewrite (handleStartSetup_unfold parse enc stamp sc o Ht).
  assert (exists e,
             initializeTeams parse enc (new_DebateSession (Screen.ui_topic sc)) o
             = (answered (new_DebateSession (Screen.ui_topic sc)), Throw e)) as [e ->].
  { rewrite initializeTeams_unfold. destruct Ho as [Hu | [m ->]]; [|now eexists].
    destruct o as [[text|]|m]; simpl in Hu; [|now eexists | contradiction].
    cbv zeta. destruct Hu as [-> | Hp]; [now eexists|].
    destruct (truthy text); [rewrite Hp|]; now eexists. }
  eexists. split; [reflexivity|]. repeat split.
Qed.

Lemma X18_failed_setup_witness :
  let sc := Screen.mkState idle (utf16 "AI 会让人类更幸福吗？") None None None
              (App.mkState [] None None false) in
  exists s',
    Screen.handleStartSetup Builtins.JSON_parse Builtins.encodeURIComponent Builtins.stamp sc
      (Failed (utf16 "fetch failed"))
    = Some (Screen.mkState idle (utf16 "AI 会让人类更幸福吗？") None None (Some s')
              (App.mkState [] None (Some (utf16 "无法初始化辩论，请检查网络或重试。")) false)).
Proof.
  intros sc.
  destruct (@X18_failed_setup Builtins.JSON_parse Builtins.encodeURIComponent Builtins.stamp
              sc (Failed (utf16 "fetch failed"))) as [s' [H _]].
  - reflexivity.
  - right. now eexists.
  - exists s'. etransitivity; [exact H|]. vm_compute. reflexivity.
Defined.

(** X19: a setup that succeeds.  The component is [ongoing], the messages
    are emptied, the error cleared, and the teams on display are the teams
    of the session.  The first turn is then requested with the prompt to go
    on, but only if the flag was down when the button was clicked: the call
    of [triggerNextTurn] reads the flag of that render, and with the flag up
    then (a turn still pending from a debate that was ended) no turn is
    requested and the flag is left down. *)
Theorem X19_successful_setup
    (parse : jsstring -> option json) (enc : jsstring -> option jsstring)
    (stamp : nat -> App.Stamp) (sc : Screen.State) (o : SendOutcome)
    (s' : DebateSession) (p q : Team) :
  truthy (trim (Screen.ui_topic sc)) = true ->
  initializeTeams parse enc (new_DebateSession (Screen.ui_topic sc)) o = (s', Ok (p, q)) ->
  exists s'' st,
    Screen.handleStartSetup parse enc stamp sc o
    = Some (Screen.mkState ongoing (Screen.ui_topic sc) (Some p) (Some q) (Some s'') st)
    /\ propTeam s'' = Some p /\ oppTeam s'' = Some q
    /\ App.messages st = [] /\ App.error st = None
    /\ (App.isLoadingTurn (Screen.turn sc) = false ->
        App.isLoadingTurn st = true
        /\ chat s'' = Some (mkChat [TeamRequest (Screen.ui_topic sc);
                                    TurnRequest CONTINUE_PROMPT] 1))
    /\ (App.isLoadingTurn (Screen.turn sc) = true ->
        App.isLoadingTurn st = false
        /\ chat s'' = Some (mkChat [TeamRequest (Screen.ui_topic sc)] 0)).
Proof.
  intros Ht Hi. rewrite (handleStartSetup_unfold parse enc stamp sc o Ht), Hi.
  pose proof (initializeTeams_chat _ _ _ _ Hi) as Hc. simpl in Hc.
  assert (propTeam s' = Some p /\ oppTeam s' = Some q) as [Hp Hq].
  { clear Hc Ht. revert Hi. rewrite initializeTeams_unfold.
    destruct o as [t|m]; [|discriminate]. cbv zeta.
    destruct (truthy _); [|discriminate].
    destruct (parse _) as [data|]; [|discriminate].
    intros Hi. destruct (set_teams_ok_inv _ _ _ Hi) as [_ [_ [_ ->]]]. now split. }
  unfold Screen.triggerNextTurn_seen, nextTurn_enter. rewrite Hc.
  destruct (App.isLoadingTurn (Screen.turn sc)).
  - do 2 eexists. split; [reflexivity|]. repeat split; try assumption; discriminate.
  - do 2 eexists. split; [reflexivity|]. cbn [propTeam oppTeam with_chat].
    repeat split; try assumption; discriminate.
Qed.

Lemma X19_successful_setup_witness :
  let after_end := Screen.mkState idle (utf16 "AI") None None None
                     (App.mkState [] None None true) in
  exists s'' st,
    Screen.handleStartSetup Builtins.JSON_parse Builtins.encodeURIComponent Builtins.stamp
      after_end (Responded (Some Builtins.one_sided_text))
    = Some (Screen.mkState ongoing (utf16 "AI") (propTeam s'') (oppTeam s'') (Some s'') st)
    /\ App.isLoadingTurn st = false
    /\ chat s'' = Some (mkChat [TeamRequest (utf16 "AI")] 0).
Proof.
  intros after_end.
  pose (r := initializeTeams Builtins.JSON_parse Builtins.encodeURIComponent
               (new_DebateSession (utf16 "AI")) (Responded (Some Builtins.one_sided_text))).
  pose (pq := match snd r with
              | Ok t => t
              | _ => (mkTeam proposition [] [], mkTeam opposition [] [])
              end).
  assert (r = (fst r, Ok (fst pq, snd pq))) as H by (vm_compute; reflexivity).
  destruct (@X19_successful_setup Builtins.JSON_parse Builtins.encodeURIComponent
              Builtins.stamp after_end (Responded (Some Builtins.one_sided_text))
              (fst r) (fst pq) (snd pq))
    as [s'' [st [E [Hp [Hq [_ [_ [_ Hup]]]]]]]].
  - reflexivity.
  - exact H.
  - exists s'', st. rewrite Hp, Hq. split; [|apply Hup; reflexivity].
    etransitivity; [exact E|]. reflexivity.
Defined.

(** X20: the two ways to ask for a turn.  With the flag up or without a
    session neither handler does anything, and an interjection without text
    does nothing either.  Otherwise the button sends the prompt to go on and
    adds no message, and the form sends the text of the interjection as it
    is, white space included, and adds it as a message of the user; both
    raise the flag. *)
Theorem X20_asking_for_a_turn (stamp : nat -> App.Stamp) (sc : Screen.State) :
  (forall text,
      App.isLoadingTurn (Screen.turn sc) = true \/ Screen.sessionRef sc = None
      \/ interjection_text text = [] ->
      Screen.handleInterjection stamp sc text = sc)
  /\ (App.isLoadingTurn (Screen.turn sc) = true \/ Screen.sessionRef sc = None ->
      Screen.handleNextTurnClick stamp sc = sc)
  /\ (forall s c,
        App.isLoadingTurn (Screen.turn sc) = false ->
        Screen.sessionRef sc = Some s ->
        chat s = Some c ->
        Screen.handleNextTurnClick stamp sc
        = Screen.mkState (Screen.status sc) (Screen.ui_topic sc) (Screen.ui_propTeam sc)
            (Screen.ui_oppTeam sc)
            (Some (with_chat s (chat_send c (TurnRequest CONTINUE_PROMPT))))
            (App.setIsLoadingTurn (Screen.turn sc) true)
        /\ forall t, t <> [] ->
             Screen.handleInterjection stamp sc (Some t)
             = Screen.mkState (Screen.status sc) (Screen.ui_topic sc)
                 (Screen.ui_propTeam sc) (Screen.ui_oppTeam sc)
                 (Some (with_chat s (chat_send c (TurnRequest t))))
                 (App.mkState
                    (App.messages (Screen.turn sc)
                     ++ [App.mkMessage
                           (App.stamp_uid (stamp (List.length (App.messages (Screen.turn sc)))))
                           App.user (Some (utf16 "你")) None None t
                           (App.stamp_now (stamp (List.length (App.messages (Screen.turn sc)))))])
                    (App.currentSpeaker (Screen.turn sc)) (App.error (Screen.turn sc))
                    true)).
Proof.
  split; [|split].
  - intros text H. unfold Screen.handleInterjection.
    destruct (App.isLoadingTurn (Screen.turn sc)); [reflexivity|].
    destruct H as [H | [H | H]]; [discriminate | |].
    + rewrite H. now destruct text.
    + destruct text as [t|]; [|reflexivity]. simpl in H.
      destruct (truthy t); [discriminate|]. now destruct (Screen.sessionRef sc).
  - intros H. unfold Screen.handleNextTurnClick.
    destruct H as [H | H]; rewrite H; [|reflexivity].
    now destruct (Screen.sessionRef sc).
  - intros s c Hl Hs Hc. split.
    + unfold Screen.handleNextTurnClick, App.triggerNextTurn_enter, nextTurn_enter.
      rewrite Hs, Hl, Hc. reflexivity.
    + intros t Ht. unfold Screen.handleInterjection, App.triggerNextTurn_enter, nextTurn_enter.
      rewrite Hs, Hl, Hc. destruct t as [|a t]; [now elim Ht|]. reflexivity.
Qed.

Lemma X20_asking_for_a_turn_witness :
  let sc := Screen.mkState ongoing (utf16 "AI") None None (Some Examples.two_debaters)
              (App.mkState [] None None false) in
  Screen.handleInterjection Builtins.stamp sc (Some []) = sc
  /\ option_map chat
       (Screen.sessionRef (Screen.handleInterjection Builtins.stamp sc (Some (utf16 " "))))
     = Some (Some (mkChat [TeamRequest (utf16 "AI"); TurnRequest (utf16 " ")] 1)).
Proof.
  intros sc.
  destruct (X20_asking_for_a_turn Builtins.stamp sc) as [H1 [_ H3]].
  split.
  - apply H1. right. right. reflexivity.
  - destruct (H3 Examples.two_debaters (mkChat [TeamRequest (utf16 "AI")] 0)
                eq_refl eq_refl eq_refl) as [_ H].
    pose proof (H (utf16 " ") ltac:(discriminate)) as E.
    exact (eq_trans (f_equal (fun x => option_map chat (Screen.sessionRef x)) E) eq_refl).
Defined.

(* ================================================================== *)
(** ** What a run keeps *)
(* ================================================================== *)






(** X22: ending the debate cancels nothing.  The button empties the
    messages and the teams on display, but it keeps the session and the
    flag; the turn that is pending then still comes to its end, and its
    segments are played into the emptied list. *)
Theorem X22_ending_the_debate_cancels_nothing
    (toLowerCase : jsstring -> jsstring) (stamp : nat -> App.Stamp)
    (sc : Screen.State) (s : DebateSession) (o : SendOutcome) :
  Screen.sessionRef sc = Some s ->
  let ended := Screen.endDebate sc in
  Screen.status ended = idle
  /\ Screen.sessionRef ended = Some s
  /\ App.isLoadingTurn (Screen.turn ended) = App.isLoadingTurn (Screen.turn sc)
  /\ App.messages (Screen.turn ended) = []
  /\ map App.msg_content
       (App.messages (fst (App.triggerNextTurn_resume toLowerCase stamp
                             (Screen.turn ended) s o)))
     = map content (turn_segments o)
  /\ turn_segments o <> [].
Proof.
  intros Hs ended. split; [reflexivity|]. split; [exact Hs|].
  split; [reflexivity|]. split; [reflexivity|]. split; [|apply turn_segments_not_nil].
  unfold App.triggerNextTurn_resume, nextTurn_resume. simpl.
  destruct (play_segments_messages toLowerCase stamp
              match chat s with
              | Some c => with_chat s (chat_settle c)
              | None => s
              end (turn_segments o)
              (App.mkState [] (App.currentSpeaker (Screen.turn sc))
                 (App.error (Screen.turn sc)) (App.isLoadingTurn (Screen.turn sc))))
    as [msgs [Hm [Hc _]]].
  rewrite Hm. simpl. exact Hc.
Qed.

Lemma X22_ending_the_debate_cancels_nothing_witness :
  let sc := Screen.mkState ongoing (utf16 "AI") None None (Some Examples.two_debaters)
              (App.mkState [] None None true) in
  map App.msg_content
    (App.messages (fst (App.triggerNextTurn_resume Builtins.toLowerCase Builtins.stamp
                          (Screen.turn (Screen.endDebate sc)) Examples.two_debaters
                          (Failed (utf16 "fetch failed")))))
  = [ERROR_PREFIX ++ utf16 "fetch failed"].
Proof.
  intros sc.
  destruct (@X22_ending_the_debate_cancels_nothing Builtins.toLowerCase Builtins.stamp sc
              Examples.two_debaters (Failed (utf16 "fetch failed")) eq_refl)
    as [_ [_ [_ [_ [H _]]]]].
  exact H.
Defined.
